(** * Bet preparation and chain resolution hooks

    A shallow embedding of [src/hooks/usePrepareBet.ts] ([usePrepareBet]) and
    of the chain resolver [useChainData].

    - JavaScript numbers are IEEE 754 binary64 values: the primitive [float]
      of the kernel, whose operations round exactly as the JavaScript ones.
    - [bigint] values are [Z]; an ERC-20 allowance, a [uint256], is [N].
    - Calls into the JavaScript runtime and into viem (number/string
      conversions, [parseUnits], [encodeAbiParameters], ...) are the fields
      of the interface [JsRuntime]; a call that throws returns [None].
    - The wallet and the network are an oracle ([Wallet]) answering each
      asynchronous call with a resolved value or a rejection; every call the
      hook makes is recorded in a trace of [Event]s. *)

From Stdlib Require Import ZArith QArith Qround Floats Lia Bool Ascii DecimalString.
From stdpp Require Import base option list gmap strings.

Set Warnings "-register-all".
Set Warnings "-inexact-float".

Local Open Scope Z_scope.

(** ** JavaScript values *)

Module Js.

(** [ToBoolean] on a Number: [0], [-0] and [NaN] are falsy. *)
Definition truthy (x : float) : bool :=
  negb (PrimFloat.is_zero x || PrimFloat.is_nan x).

(** What a [throw] or a rejected promise carries. *)
Inductive exn : Type :=
| TypeError (what : string)
| ThrownBy (callee : string)
| Rejected (reason : string).

(** A computation that returns or throws. *)
Definition Exc (A : Type) : Type := exn + A.

Definition ret {A} (a : A) : Exc A := inr a.
Definition throw {A} (e : exn) : Exc A := inl e.
Definition bind {A B} (m : Exc A) (k : A -> Exc B) : Exc B :=
  match m with
  | inl e => inl e
  | inr a => k a
  end.

(** A library call that returns [None] has thrown. *)
Definition calling {A} (callee : string) (r : option A) : Exc A :=
  match r with
  | Some a => inr a
  | None => inl (ThrownBy callee)
  end.

Fixpoint mapE {A B} (f : A -> Exc B) (l : list A) : Exc (list B) :=
  match l with
  | [] => ret []
  | a :: l' => bind (f a) (fun b => bind (mapE f l') (fun bs => ret (b :: bs)))
  end.

End Js.

Notation "'try!' x ':=' e 'in' k" := (Js.bind e (fun x => k))
  (at level 10, x name, e at level 100, k at level 200).

(** Values handed to viem's ABI encoder. *)
Inductive AbiValue : Type :=
| AbiInt (z : Z)
| AbiTuple (fields : list AbiValue)
| AbiArray (items : list AbiValue).

(** The functions of the JavaScript runtime and of viem that the hooks call. *)
Class JsRuntime : Type := {
  (** unary [+] on a string *)
  StringToNumber : string -> float;
  (** [String(x)] and [`${x}`] on a number *)
  NumberToString : float -> string;
  parseFloat : string -> float;
  (** [x.toFixed(digits)] *)
  toFixed : float -> Z -> option string;
  Math_floor : float -> float;
  (** [BigInt(s)] on a string and [BigInt(x)] on a number *)
  StringToBigInt : string -> option Z;
  NumberToBigInt : float -> option Z;
  (** viem *)
  parseUnits : string -> Z -> option Z;
  formatUnits : Z -> Z -> string;
  AbiParameters : Type;
  parseAbiParameters : string -> AbiParameters;
  encodeAbiParameters : AbiParameters -> list AbiValue -> option string
}.

(** ** Data model *)

Definition Address := string.
Definition TxHash := string.

(** [amount: string | number] *)
Inductive Amount : Type :=
| AmountStr (s : string)
| AmountNum (x : float).

(** [conditionId: string | bigint] *)
Inductive ConditionId : Type :=
| ConditionStr (s : string)
| ConditionBig (z : Z).

(** [outcomeId: string | number] *)
Inductive OutcomeId : Type :=
| OutcomeStr (s : string)
| OutcomeNum (x : float).

Record Selection : Type := {
  conditionId : ConditionId;
  outcomeId : OutcomeId
}.

(** [Props]; a callback is recorded by whether the caller supplied it. *)
Record Props : Type := {
  amount : Amount;
  slippage : float;
  deadline : option float;
  affiliate : Address;
  selections : list Selection;
  onSuccess : bool;
  onError : bool
}.

(** What [useChain()] provides. *)
Record BetToken : Type := {
  token_address : Address;
  decimals : Z;
  isNative : bool
}.

Record Contracts : Type := {
  proxyFront : Address;
  lp : Address;
  prematchCore : Address;
  prematchComboCore : Address
}.

(** The constants imported from [../config]. *)
Record Config : Type := {
  DEFAULT_DEADLINE : float;
  ODDS_DECIMALS : Z;
  MAX_UINT_256 : Z
}.

(** [useWaitForTransaction(betTx.data)] as one render sees it. *)
Record ReceiptState : Type := {
  isSuccess : bool;
  isError : bool;
  error : option string
}.

(** The reactive inputs of one render: the chain context, the data of the
    allowance query ([undefined] while it has none), the raw result of
    [useCalcOdds], the state of the bet receipt, and the clock. *)
Record Render : Type := {
  betToken : BetToken;
  contracts : Contracts;
  allowance_data : option N;
  odds_totalOdds : option Z;
  odds_conditionsOdds : option (list Z);
  betReceipt : ReceiptState;
  Date_now : float
}.

(** ** Asynchronous calls *)

(** The single struct of the second argument of [bet], with the address the
    write goes to and the native value sent along. *)
Record BetCall : Type := {
  bet_to : Address;
  bet_lp : Address;
  bet_core : Address;
  bet_amount : Z;
  bet_expiresAt : Z;
  bet_affiliate : Address;
  bet_minOdds : Z;
  bet_data : string;
  bet_value : Z
}.

(** The calls that leave the hook. *)
Inductive Event : Type :=
| ApproveWrite (token spender : Address) (value : Z)
| BetWrite (call : BetCall)
| WaitForReceipt (tx : TxHash)
| AllowanceRefetch.

(** A settled promise: rejected with a reason, or resolved with a value. *)
Definition Settled (A : Type) : Type := (string + A)%type.

(** The wallet and the node: what each awaited call settles to. The hook
    never looks inside a receipt. *)
Record Wallet : Type := {
  Receipt : Type;
  approveTx_writeAsync : Address -> Address -> Z -> Settled TxHash;
  betTx_writeAsync : BetCall -> Settled TxHash;
  waitForTransactionReceipt : TxHash -> Settled Receipt
}.

(** An [async] function: the calls made so far, and how it settled. *)
Definition Async (A : Type) : Type := (list Event * Js.Exc A)%type.

Module Async.

Definition ret {A} (a : A) : Async A := ([], Js.ret a).

Definition bind {A B} (m : Async A) (k : A -> Async B) : Async B :=
  match m with
  | (t, inl e) => (t, inl e)
  | (t, inr a) => let '(t', r) := k a in (t ++ t', r)
  end.

(** A synchronous computation inside the function body. *)
Definition lift {A} (m : Js.Exc A) : Async A := ([], m).

(** One awaited call that leaves the hook: a rejection is thrown at the
    [await]. *)
Definition call {A} (ev : Event) (settled : Settled A) : Async A :=
  ([ev], match settled with
         | inl reason => Js.throw (Js.Rejected reason)
         | inr a => Js.ret a
         end).

End Async.

Notation "'await!' x ':=' e 'in' k" := (Async.bind e (fun x => k))
  (at level 10, x name, e at level 100, k at level 200).

Section Hook.
Context `{rt : JsRuntime}.
Variable cfg : Config.
Variable wallet : Wallet.

(** unary [+] applied to the [amount] prop *)
Definition amountToNumber (a : Amount) : float :=
  match a with
  | AmountStr s => StringToNumber s
  | AmountNum x => x
  end.

(** [String(amount)] *)
Definition amountToString (a : Amount) : string :=
  match a with
  | AmountStr s => s
  | AmountNum x => NumberToString x
  end.

(** [isApproveRequired], lines 54-59: the operands of [&&] are evaluated
    left to right and the first falsy one decides. *)
Definition isApproveRequired (r : Render) (p : Props) : Js.Exc bool :=
  if negb (isNative (betToken r)) then
    match allowance_data r with
    | Some data =>
        if Js.truthy (amountToNumber (amount p)) then
          try! spend := Js.calling "parseUnits"
            (parseUnits (NumberToString (amountToNumber (amount p)))
               (decimals (betToken r))) in
          Js.ret (Z.of_N data <? spend)
        else Js.ret false
    | None => Js.ret false
    end
  else Js.ret false.

(** [approve], lines 61-65. *)
Definition approve (r : Render) : Async unit :=
  await! tx := Async.call
    (ApproveWrite (token_address (betToken r)) (proxyFront (contracts r)) (MAX_UINT_256 cfg))
    (approveTx_writeAsync wallet (token_address (betToken r)) (proxyFront (contracts r))
       (MAX_UINT_256 cfg)) in
  await! _receipt := Async.call (WaitForReceipt tx) (waitForTransactionReceipt wallet tx) in
  Async.call AllowanceRefetch (inr tt).

(** [conditionsOdds], lines 72-74. *)
Definition conditionsOdds (r : Render) : option (list float) :=
  (fun raws => map (fun rawOdds => StringToNumber (formatUnits rawOdds (ODDS_DECIMALS cfg))) raws)
    <$> odds_conditionsOdds r.

(** [totalOdds], line 76: [undefined] when the raw odds are missing or [0n]. *)
Definition totalOdds (r : Render) : option float :=
  match odds_totalOdds r with
  | Some raw =>
      if raw =? 0 then None
      else Some (StringToNumber (formatUnits raw (ODDS_DECIMALS cfg)))
  | None => None
  end.

(** [minOdds], line 107. *)
Definition minOdds (totalOdds slippage : float) : float :=
  (1 + (totalOdds - 1) * (100 - slippage) / 100)%float.

(** [+parseFloat(String(x)).toFixed(digits)] followed by
    [parseUnits(`${fixed}`, digits)], lines 104-105 and 108-109. *)
Definition toRaw (text : string) (digits : Z) : Js.Exc Z :=
  try! shown := Js.calling "toFixed" (toFixed (parseFloat text) digits) in
  Js.calling "parseUnits" (parseUnits (NumberToString (StringToNumber shown)) digits).

(** [deadline || DEFAULT_DEADLINE] *)
Definition deadlineOrDefault (p : Props) : float :=
  match deadline p with
  | Some d => if Js.truthy d then d else DEFAULT_DEADLINE cfg
  | None => DEFAULT_DEADLINE cfg
  end.

(** [rawDeadline], line 110. *)
Definition rawDeadline (r : Render) (p : Props) : Js.Exc Z :=
  Js.calling "BigInt"
    (NumberToBigInt (Math_floor (Date_now r / 1000) + deadlineOrDefault p)%float).

(** [BigInt(conditionId)] and [BigInt(outcomeId)] *)
Definition conditionToBigInt (c : ConditionId) : Js.Exc Z :=
  match c with
  | ConditionStr s => Js.calling "BigInt" (StringToBigInt s)
  | ConditionBig z => Js.ret z
  end.

Definition outcomeToBigInt (o : OutcomeId) : Js.Exc Z :=
  match o with
  | OutcomeStr s => Js.calling "BigInt" (StringToBigInt s)
  | OutcomeNum x => Js.calling "BigInt" (NumberToBigInt x)
  end.

Definition selectionToBigInts (s : Selection) : Js.Exc (Z * Z) :=
  try! c := conditionToBigInt (conditionId s) in
  try! o := outcomeToBigInt (outcomeId s) in
  Js.ret (c, o).

(** The test [selections.length > 1], line 115. *)
Definition isCombo (p : Props) : bool := (1 <? length (selections p))%nat.

(** What destructuring [selections[0]] throws when the element is
    [undefined], line 133. *)
Definition destructureUndefined : Js.exn :=
  Js.TypeError "Cannot destructure property 'conditionId' of undefined".

(** The branch on [selections.length > 1], lines 112-142: the core
    contract and the encoded selection data. *)
Definition encodeSelections (r : Render) (p : Props) : Js.Exc (Address * string) :=
  if isCombo p then
    try! tuple := Js.mapE selectionToBigInts (selections p) in
    try! data := Js.calling "encodeAbiParameters"
      (encodeAbiParameters (parseAbiParameters "(uint256, uint64)[]")
         [AbiArray (map (fun co => AbiTuple [AbiInt (fst co); AbiInt (snd co)]) tuple)]) in
    Js.ret (prematchComboCore (contracts r), data)
  else
    match selections p !! 0%nat with
    | None => Js.throw destructureUndefined
    | Some s =>
        try! co := selectionToBigInts s in
        try! data := Js.calling "encodeAbiParameters"
          (encodeAbiParameters (parseAbiParameters "uint256, uint64")
             [AbiInt (fst co); AbiInt (snd co)]) in
        Js.ret (prematchCore (contracts r), data)
    end.

(** Everything [placeBet] computes before it writes, lines 104-142, for
    the aggregate odds [odds]. *)
Definition prepareCall (r : Render) (p : Props) (odds : float) : Js.Exc BetCall :=
  try! rawAmount := toRaw (amountToString (amount p)) (decimals (betToken r)) in
  try! rawMinOdds := toRaw (NumberToString (minOdds odds (slippage p))) (ODDS_DECIMALS cfg) in
  try! expiresAt := rawDeadline r p in
  try! target := encodeSelections r p in
  Js.ret {|
    bet_to := proxyFront (contracts r);
    bet_lp := lp (contracts r);
    bet_core := fst target;
    bet_amount := rawAmount;
    bet_expiresAt := expiresAt;
    bet_affiliate := affiliate p;
    bet_minOdds := rawMinOdds;
    bet_data := snd target;
    bet_value := if isNative (betToken r) then rawAmount else 0
  |}.

(** [!totalOdds] is false exactly for a number that is truthy. *)
Definition oddsAvailable (r : Render) : option float :=
  match totalOdds r with
  | Some odds => if Js.truthy odds then Some odds else None
  | None => None
  end.

(** [placeBet], lines 99-164. *)
Definition placeBet (r : Render) (p : Props) : Async unit :=
  match oddsAvailable r with
  | None => Async.ret tt
  | Some odds =>
      await! call := Async.lift (prepareCall r p odds) in
      await! tx := Async.call (BetWrite call) (betTx_writeAsync wallet call) in
      await! _receipt := Async.call (WaitForReceipt tx) (waitForTransactionReceipt wallet tx) in
      Async.ret tt
  end.

(** [submit], lines 166-172, in a render where [isApproveRequired] has the
    value [required]. *)
Definition submit (required : bool) (r : Render) (p : Props) : Async unit :=
  if required then approve r else placeBet r p.

(** What one render of [usePrepareBet] returns, lines 174-194; the
    loading and pending flags, which only forward the state of the
    wallet library, are left out. *)
Record PreparedBet : Type := {
  ret_isApproveRequired : bool;
  ret_conditionsOdds : option (list float);
  ret_totalOdds : option float;
  ret_submit : Async unit
}.

(** [usePrepareBet]: a render that throws returns nothing. *)
Definition usePrepareBet (r : Render) (p : Props) : Js.Exc PreparedBet :=
  try! required := isApproveRequired r p in
  Js.ret {|
    ret_isApproveRequired := required;
    ret_conditionsOdds := conditionsOdds r;
    ret_totalOdds := totalOdds r;
    ret_submit := submit required r p
  |}.

End Hook.

(** The condition of the approval rule as the specification words it: the
    current allowance is strictly below the requested spend, parsed to the
    decimal precision of the token. *)
Definition allowanceBelowSpend `{rt : JsRuntime} (r : Render) (p : Props) : Prop :=
  exists (allowance : N) (spend : Z),
    allowance_data r = Some allowance
    /\ parseUnits (NumberToString (amountToNumber (amount p))) (decimals (betToken r))
       = Some spend
    /\ Z.of_N allowance < spend.

(** ** The two effects on the bet receipt, lines 87-97 *)

Inductive Callback : Type :=
| OnSuccess
| OnError (err : option string).

Module React.

(** [useEffect(f, [dep])] runs [f] after the first render and after every
    render whose [dep] differs from the previous render's. *)
Definition runs (previous : option bool) (dep : bool) : bool :=
  match previous with
  | None => true
  | Some old => negb (Bool.eqb old dep)
  end.

End React.

(** The callbacks invoked after one render, given the previous render's
    receipt state ([None] for the first render). *)
Definition commitEffects (previous : option ReceiptState) (r : Render) (p : Props)
  : list Callback :=
  (if React.runs (isSuccess <$> previous) (isSuccess (betReceipt r)) then
     if isSuccess (betReceipt r) && onSuccess p then [OnSuccess] else []
   else [])
  ++
  (if React.runs (isError <$> previous) (isError (betReceipt r)) then
     if isError (betReceipt r) && onError p then [OnError (error (betReceipt r))] else []
   else []).

(** The callbacks invoked over a sequence of renders. *)
Fixpoint commitRenders (previous : option ReceiptState) (renders : list (Render * Props))
  : list Callback :=
  match renders with
  | [] => []
  | (r, p) :: later =>
      commitEffects previous r p ++ commitRenders (Some (betReceipt r)) later
  end.

Definition isOnSuccess (c : Callback) : bool :=
  match c with
  | OnSuccess => true
  | OnError _ => false
  end.

Definition isOnError (c : Callback) : bool :=
  match c with
  | OnSuccess => false
  | OnError _ => true
  end.

(** ** The chain resolver *)

Section ChainResolver.
(** The records of the table [chainsData] of [../config]: objects. *)
Variable ChainData : Type.

(** [useChainData]: what it logs with [console.error], and what it
    returns. [chain] is [useNetwork().chain], [None] without a network. *)
Definition useChainData (chainsData : gmap Z ChainData) (chain : option Z)
  : list string * option ChainData :=
  let chainData :=
    match chain with
    | Some id => if id =? 0 then None else chainsData !! id
    | None => None
    end in
  match chainData with
  | None => (["Selected network not supported."], None)
  | Some data => ([], Some data)
  end.

End ChainResolver.

Arguments useChainData {ChainData} chainsData chain.

(** ** Binary64 numbers by sign

    The classes of [spec_float] values that the analysis of the minimum odds
    uses, and the two constants of line 107. *)

Module Binary64.

(** Zero, a positive finite number, or plus infinity. *)
Definition nonneg (f : spec_float) : Prop :=
  match f with
  | S754_zero false | S754_finite false _ _ | S754_infinity false => True
  | _ => False
  end.

(** Zero or a positive finite number. *)
Definition finite_nonneg (f : spec_float) : Prop :=
  match f with
  | S754_zero false | S754_finite false _ _ => True
  | _ => False
  end.

(** [1] and [100] as binary64 numbers. *)
Definition SF_one : spec_float := S754_finite false 4503599627370496 (-52).
Definition SF_hundred : spec_float := S754_finite false 7036874417766400 (-46).

End Binary64.

(** ** A reference runtime

    The functions of [JsRuntime] as ECMAScript and viem define them, on
    strings of ASCII characters: number to string is the shortest decimal
    that reads back as the same double, string to number rounds to the
    nearest double, and [parseUnits], [formatUnits] and the ABI encoding
    follow viem. It is the runtime on which the properties below are
    exercised on concrete inputs. *)

Module Reference.

(** *** Exact values *)

Definition pow2Q (e : Z) : Q :=
  if 0 <=? e then inject_Z (2 ^ e) else Qmake 1 (Z.to_pos (2 ^ (- e))).

Definition pow10Q (e : Z) : Q :=
  if 0 <=? e then inject_Z (10 ^ e) else Qmake 1 (Z.to_pos (10 ^ (- e))).

(** The value of the mantissa [m] at the binary exponent [e]. *)
Definition valueQ (m : Z) (e : Z) : Q := Qmult (inject_Z m) (pow2Q e).

(** The double nearest to [num / den], ties to even. *)
Definition nearest (negative : bool) (num den : positive) : float :=
  SF2Prim (SFdiv prec emax (S754_finite negative num 0) (S754_finite false den 0)).

(** The double nearest to [digits * 10 ^ exp10]. *)
Definition ofDecimal (negative : bool) (digits : N) (exp10 : Z) : float :=
  match digits with
  | N0 => if negative then PrimFloat.neg_zero else PrimFloat.zero
  | Npos d =>
      let size := Z.log2 (Zpos d) * 30103 / 100000 + 1 in
      if 310 <? exp10 + size then (if negative then PrimFloat.neg_infinity else PrimFloat.infinity)
      else if exp10 + size + 1 <? -330 then (if negative then PrimFloat.neg_zero else PrimFloat.zero)
      else if 0 <=? exp10 then nearest negative (d * Z.to_pos (10 ^ exp10)) 1
      else nearest negative d (Z.to_pos (10 ^ (- exp10)))
  end.

Definition Qltb (a b : Q) : bool :=
  match Qcompare a b with Lt => true | _ => false end.

Definition Qleb (a b : Q) : bool :=
  match Qcompare a b with Gt => false | _ => true end.

(** *** Strings *)

Definition digitsOf (n : N) : string := NilZero.string_of_uint (N.to_uint n).

Definition zeros (n : Z) : string := String.concat "" (replicate (Z.to_nat n) "0").

(** [s.slice(from, to)], with the negative indices of JavaScript. *)
Definition slice (s : string) (from to : Z) : string :=
  let len := Z.of_nat (String.length s) in
  let clamp i := if i <? 0 then Z.max 0 (len + i) else Z.min i len in
  let a := clamp from in
  let b := clamp to in
  String.substring (Z.to_nat a) (Z.to_nat (b - a)) s.

Definition sliceFrom (s : string) (from : Z) : string :=
  slice s from (Z.of_nat (String.length s)).

Definition padStart (s : string) (n : Z) : string :=
  zeros (n - Z.of_nat (String.length s)) +:+ s.

Definition padEnd (s : string) (n : Z) : string :=
  s +:+ zeros (n - Z.of_nat (String.length s)).

(** *** Number to string *)

(** The shortest decimal [digits * 10 ^ q] that reads back as the double
    [m * 2 ^ e], searched from the scale [q] downwards. *)
Fixpoint shortest (fuel : nat) (m e q : Z) : N * Z :=
  match fuel with
  | O => (0%N, q)
  | S fuel' =>
      let x := valueQ m e in
      let hi := valueQ (2 * m + 1) (e - 1) in
      let lo :=
        if (m =? 2 ^ 52) && (-1074 <? e) then valueQ (4 * m - 1) (e - 2)
        else valueQ (2 * m - 1) (e - 1) in
      let inside v :=
        if Z.even m then Qleb lo v && Qleb v hi else Qltb lo v && Qltb v hi in
      let below := Qfloor (Qdiv x (pow10Q q)) in
      let above := below + 1 in
      let vbelow := Qmult (inject_Z below) (pow10Q q) in
      let vabove := Qmult (inject_Z above) (pow10Q q) in
      let okBelow := (0 <? below) && inside vbelow in
      let okAbove := inside vabove in
      match okBelow, okAbove with
      | true, true =>
          match Qcompare (Qminus x vbelow) (Qminus vabove x) with
          | Lt => (Z.to_N below, q)
          | Gt => (Z.to_N above, q)
          | Eq => (Z.to_N (if Z.even below then below else above), q)
          end
      | true, false => (Z.to_N below, q)
      | false, true => (Z.to_N above, q)
      | false, false => shortest fuel' m e (q - 1)
      end
  end.

(** The layout of [Number::toString] for the digits [s] and the decimal
    exponent [n]: the value is [0.s * 10 ^ n]. *)
Definition layout (s : string) (n : Z) : string :=
  let k := Z.of_nat (String.length s) in
  if (k <=? n) && (n <=? 21) then s +:+ zeros (n - k)
  else if (0 <? n) && (n <=? 21) then slice s 0 n +:+ "." +:+ sliceFrom s n
  else if (-6 <? n) && (n <=? 0) then "0." +:+ zeros (- n) +:+ s
  else
    let exponent := (if n - 1 <? 0 then "-" else "+") +:+ digitsOf (Z.to_N (Z.abs (n - 1))) in
    if k =? 1 then s +:+ "e" +:+ exponent
    else slice s 0 1 +:+ "." +:+ sliceFrom s 1 +:+ "e" +:+ exponent.

Definition NumberToString (x : float) : string :=
  match Prim2SF x with
  | S754_nan => "NaN"
  | S754_zero _ => "0"
  | S754_infinity false => "Infinity"
  | S754_infinity true => "-Infinity"
  | S754_finite negative m e =>
      let start := (Z.log2 (Zpos m) + 1 + e) * 30103 / 100000 + 2 in
      let '(s, q) := shortest 40 (Zpos m) e start in
      let text := digitsOf s in
      (if negative then "-" else "") +:+ layout text (Z.of_nat (String.length text) + q)
  end.

(** *** Number to fixed notation, and integers *)

(** The float of an integer of magnitude below [2 ^ 53], [ifZero] being
    the zero to return for [0]. *)
Definition ofInteger (z : Z) (ifZero : float) : float :=
  match z with
  | Z0 => ifZero
  | Zpos p => nearest false p 1
  | Zneg p => nearest true p 1
  end.

Definition toFixed (x : float) (digits : Z) : option string :=
  if (digits <? 0) || (100 <? digits) then None
  else
    let fixed (n : Z) :=
      let m := digitsOf (Z.to_N n) in
      if digits =? 0 then m
      else
        let m := padStart m (digits + 1) in
        let k := Z.of_nat (String.length m) in
        slice m 0 (k - digits) +:+ "." +:+ sliceFrom m (k - digits) in
    match Prim2SF x with
    | S754_zero _ => Some (fixed 0)
    | S754_finite negative m e =>
        let v := valueQ (Zpos m) e in
        if Qleb (pow10Q 21) v then Some (NumberToString x)
        else
          let n := Qfloor (Qplus (Qmult v (pow10Q digits)) (Qmake 1 2)) in
          Some ((if negative then "-" else "") +:+ fixed n)
    | _ => Some (NumberToString x)
    end.

Definition signedQ (negative : bool) (m : positive) (e : Z) : Q :=
  valueQ (if negative then Zneg m else Zpos m) e.

Definition Math_floor (x : float) : float :=
  match Prim2SF x with
  | S754_finite negative m e =>
      if 0 <=? e then x else ofInteger (Qfloor (signedQ negative m e)) PrimFloat.zero
  | _ => x
  end.

Definition Math_round (x : float) : float :=
  match Prim2SF x with
  | S754_finite negative m e =>
      if 0 <=? e then x
      else ofInteger (Qfloor (Qplus (signedQ negative m e) (Qmake 1 2)))
             (if negative then PrimFloat.neg_zero else PrimFloat.zero)
  | _ => x
  end.

Definition NumberToBigInt (x : float) : option Z :=
  match Prim2SF x with
  | S754_zero _ => Some 0
  | S754_finite negative m e =>
      let z := if negative then Zneg m else Zpos m in
      if 0 <=? e then Some (z * 2 ^ e)
      else if Zpos m mod 2 ^ (- e) =? 0 then Some (z / 2 ^ (- e))
      else None
  | _ => None
  end.

(** *** String to number *)

(** The white space and line terminators of the ASCII range. *)
Definition isSpace (c : ascii) : bool :=
  let n := nat_of_ascii c in
  ((9 <=? n) && (n <=? 13))%nat || (n =? 32)%nat.

Fixpoint trimStart (s : string) : string :=
  match s with
  | String c s' => if isSpace c then trimStart s' else s
  | EmptyString => s
  end.

Definition trim (s : string) : string :=
  String.rev (trimStart (String.rev (trimStart s))).

(** The value of a digit in a radix up to 16. *)
Definition digitValue (radix : N) (c : ascii) : option N :=
  let n := N_of_ascii c in
  let v :=
    if (48 <=? n)%N && (n <=? 57)%N then Some (n - 48)%N
    else if (97 <=? n)%N && (n <=? 102)%N then Some (n - 87)%N
    else if (65 <=? n)%N && (n <=? 70)%N then Some (n - 55)%N
    else None in
  match v with
  | Some d => if (d <? radix)%N then Some d else None
  | None => None
  end.

(** The longest run of digits at the start of [s]: its value, its length
    and what follows. *)
Fixpoint scanDigits (radix : N) (s : string) (value : N) (count : Z) : N * Z * string :=
  match s with
  | String c s' =>
      match digitValue radix c with
      | Some d => scanDigits radix s' (value * radix + d)%N (count + 1)
      | None => (value, count, s)
      end
  | EmptyString => (value, count, s)
  end.

Definition stripPrefix (p s : string) : option string :=
  if String.prefix p s then Some (sliceFrom s (Z.of_nat (String.length p))) else None.

(** [[+-]] *)
Definition scanSign (s : string) : bool * string :=
  match s with
  | String "-" s' => (true, s')
  | String "+" s' => (false, s')
  | _ => (false, s)
  end.

(** [[eE][+-]?digits], when present. *)
Definition scanExponent (s : string) : Z * string :=
  match s with
  | String c s' =>
      if (Ascii.eqb c "e" || Ascii.eqb c "E")%bool then
        let '(negative, s'') := scanSign s' in
        let '(value, count, rest) := scanDigits 10 s'' 0%N 0 in
        if 0 <? count then ((if negative then - Z.of_N value else Z.of_N value), rest)
        else (0, s)
      else (0, s)
  | EmptyString => (0, s)
  end.

(** The longest prefix of [s] that is a [StrDecimalLiteral]: its value
    and what follows. *)
Definition scanDecimal (s : string) : option (float * string) :=
  let '(negative, s0) := scanSign s in
  match stripPrefix "Infinity" s0 with
  | Some rest => Some ((if negative then PrimFloat.neg_infinity else PrimFloat.infinity), rest)
  | None =>
      let '(whole, count1, s1) := scanDigits 10 s0 0%N 0 in
      let '(mantissa, count2, s2) :=
        match s1 with
        | String "." s1' =>
            let '(m, c, r) := scanDigits 10 s1' whole 0 in
            if (0 <? count1) || (0 <? c) then (m, c, r) else (whole, 0, s1)
        | _ => (whole, 0, s1)
        end in
      if (0 <? count1) || (0 <? count2) then
        let '(exponent, s3) := scanExponent s2 in
        Some (ofDecimal negative mantissa (exponent - count2), s3)
      else None
  end.

Definition parseFloat (s : string) : float :=
  match scanDecimal (trimStart s) with
  | Some (x, _) => x
  | None => PrimFloat.nan
  end.

(** [0x], [0o] and [0b] literals. *)
Definition scanNonDecimal (s : string) : option N :=
  let radix :=
    match s with
    | String "0" (String c _) =>
        if (Ascii.eqb c "x" || Ascii.eqb c "X")%bool then Some 16%N
        else if (Ascii.eqb c "o" || Ascii.eqb c "O")%bool then Some 8%N
        else if (Ascii.eqb c "b" || Ascii.eqb c "B")%bool then Some 2%N
        else None
    | _ => None
    end in
  match radix with
  | Some r =>
      match scanDigits r (sliceFrom s 2) 0%N 0 with
      | (value, count, EmptyString) => if 0 <? count then Some value else None
      | _ => None
      end
  | None => None
  end.

Definition StringToNumber (s : string) : float :=
  let t := trim s in
  match t with
  | EmptyString => PrimFloat.zero
  | _ =>
      match scanNonDecimal t with
      | Some n => ofDecimal false n 0
      | None =>
          match scanDecimal t with
          | Some (x, EmptyString) => x
          | _ => PrimFloat.nan
          end
      end
  end.

Definition StringToBigInt (s : string) : option Z :=
  let t := trim s in
  match t with
  | EmptyString => Some 0
  | _ =>
      match scanNonDecimal t with
      | Some n => Some (Z.of_N n)
      | None =>
          let '(negative, t') := scanSign t in
          match scanDigits 10 t' 0%N 0 with
          | (value, count, EmptyString) =>
              if 0 <? count then Some (if negative then - Z.of_N value else Z.of_N value)
              else None
          | _ => None
          end
      end
  end.

(** *** viem: units *)

(** [`${z}`] for a bigint. *)
Definition BigIntToString (z : Z) : string :=
  (if z <? 0 then "-" else "") +:+ digitsOf (Z.abs_N z).

(** [s.replace(/(0+)$/, '')] *)
Definition stripTrailingZeros (s : string) : string :=
  let fix strip (r : string) : string :=
    match r with
    | String "0" r' => strip r'
    | _ => r
    end in
  String.rev (strip (String.rev s)).

(** [value.split('.')]: the first two parts, the second [None] without a
    dot. *)
Fixpoint splitDot (s : string) : string * option string :=
  match s with
  | EmptyString => (EmptyString, None)
  | String "." s' => (EmptyString, Some (fst (splitDot s')))
  | String c s' => let '(a, b) := splitDot s' in (String c a, b)
  end.

(** [parseUnits], after viem's [utils/unit/parseUnits.ts]. *)
Definition parseUnits (value : string) (decimals : Z) : option Z :=
  let '(integer, second) := splitDot value in
  let fraction := default "0" second in
  let negative := String.prefix "-" integer in
  let integer := if negative then sliceFrom integer 1 else integer in
  let fraction := stripTrailingZeros fraction in
  let increment (text : string) : option string :=
    z ← StringToBigInt text; Some (BigIntToString (z + 1)) in
  parts ←
    (if decimals =? 0 then
       if PrimFloat.eqb (Math_round (StringToNumber ("." +:+ fraction))) 1 then
         integer' ← increment integer; Some (integer', EmptyString)
       else Some (integer, EmptyString)
     else if decimals <? Z.of_nat (String.length fraction) then
       let left := slice fraction 0 (decimals - 1) in
       let unit := slice fraction (decimals - 1) decimals in
       let right := sliceFrom fraction decimals in
       let rounded := Math_round (StringToNumber (unit +:+ "." +:+ right)) in
       fraction' ←
         (if PrimFloat.ltb 9 rounded then
            left' ← increment left;
            Some (padStart (left' +:+ "0") (Z.of_nat (String.length left) + 1))
          else Some (left +:+ NumberToString rounded));
       if decimals <? Z.of_nat (String.length fraction') then
         integer' ← increment integer;
         Some (integer', slice (sliceFrom fraction' 1) 0 decimals)
       else Some (integer, slice fraction' 0 decimals)
     else Some (integer, padEnd fraction decimals));
  StringToBigInt ((if negative then "-" else "") +:+ fst parts +:+ snd parts).

(** [formatUnits], after viem's [utils/unit/formatUnits.ts]. *)
Definition formatUnits (value : Z) (decimals : Z) : string :=
  let negative := value <? 0 in
  let display := padStart (digitsOf (Z.abs_N value)) decimals in
  let len := Z.of_nat (String.length display) in
  let integer := slice display 0 (len - decimals) in
  let fraction := stripTrailingZeros (sliceFrom display (len - decimals)) in
  (if negative then "-" else "")
  +:+ (match integer with EmptyString => "0" | _ => integer end)
  +:+ (match fraction with EmptyString => "" | _ => "." +:+ fraction end).

(** *** viem: ABI encoding *)

Inductive AbiType : Type :=
| abi_uint (bits : Z)
| abi_tuple (components : list AbiType)
| abi_array (element : AbiType).

(** The two signatures that the hook passes; any other one has no
    parameters here. *)
Definition parseAbiParameters (signature : string) : list AbiType :=
  if String.eqb signature "uint256, uint64" then [abi_uint 256; abi_uint 64]
  else if String.eqb signature "(uint256, uint64)[]" then
    [abi_array (abi_tuple [abi_uint 256; abi_uint 64])]
  else [].

(** One 32-byte word, big-endian, as 64 hexadecimal digits. *)
Fixpoint hexDigits (count : nat) (z : Z) (acc : string) : string :=
  match count with
  | O => acc
  | S count' =>
      let d := Z.to_nat (z mod 16) in
      let c := ascii_of_nat (if (d <? 10)%nat then 48 + d else 87 + d) in
      hexDigits count' (z / 16) (String c acc)
  end.

(** [encodeNumber] on an unsigned integer: [numberToHex(value, { size: 32 })]
    checks the range of the 32-byte word, whatever the [bits] of the type. *)
Definition encodeUint (bits z : Z) : option (list Z) :=
  if (0 <=? z) && (z <? 2 ^ 256) then Some [z] else None.

(** A tuple of unsigned integers: its words in order. *)
Fixpoint encodeUints (types : list AbiType) (values : list AbiValue) : option (list Z) :=
  match types, values with
  | [], [] => Some []
  | abi_uint bits :: types', AbiInt z :: values' =>
      word ← encodeUint bits z;
      rest ← encodeUints types' values';
      Some (word ++ rest)
  | _, _ => None
  end.

(** A static value: an unsigned integer or a tuple of them. *)
Definition encodeStatic (type : AbiType) (value : AbiValue) : option (list Z) :=
  match type, value with
  | abi_uint bits, AbiInt z => encodeUint bits z
  | abi_tuple types, AbiTuple values => encodeUints types values
  | _, _ => None
  end.

(** One parameter: whether it is dynamic, and its words. An array is
    its length followed by its static elements. *)
Definition encodeParameter (type : AbiType) (value : AbiValue) : option (bool * list Z) :=
  match type, value with
  | abi_array element, AbiArray items =>
      encoded ← mapM (encodeStatic element) items;
      Some (true, Z.of_nat (length items) :: concat encoded)
  | _, _ => words ← encodeStatic type value; Some (false, words)
  end.

Fixpoint encodeParameters (types : list AbiType) (values : list AbiValue)
  : option (list (bool * list Z)) :=
  match types, values with
  | [], [] => Some []
  | type :: types', value :: values' =>
      first ← encodeParameter type value;
      rest ← encodeParameters types' values';
      Some (first :: rest)
  | _, _ => None
  end.

(** The head, with the offset of each dynamic parameter, then the tails. *)
Fixpoint layoutWords (encoded : list (bool * list Z)) (offset : Z) : list Z * list Z :=
  match encoded with
  | [] => ([], [])
  | (true, words) :: rest =>
      let '(heads, tails) := layoutWords rest (offset + 32 * Z.of_nat (length words)) in
      (offset :: heads, words ++ tails)
  | (false, words) :: rest =>
      let '(heads, tails) := layoutWords rest offset in
      (words ++ heads, tails)
  end.

Definition headSize (encoded : list (bool * list Z)) : Z :=
  32 * Z.of_nat (length (concat (map (fun p : bool * list Z => if fst p then [0] else snd p) encoded))).

Definition encodeAbiParameters (types : list AbiType) (values : list AbiValue)
  : option string :=
  encoded ← encodeParameters types values;
  let '(heads, tails) := layoutWords encoded (headSize encoded) in
  Some ("0x" +:+ String.concat "" (map (fun w => hexDigits 64 w "") (heads ++ tails))).

End Reference.

(** The reference runtime as a [JsRuntime]. *)
Definition referenceRuntime : JsRuntime := {|
  StringToNumber := Reference.StringToNumber;
  NumberToString := Reference.NumberToString;
  parseFloat := Reference.parseFloat;
  toFixed := Reference.toFixed;
  Math_floor := Reference.Math_floor;
  StringToBigInt := Reference.StringToBigInt;
  NumberToBigInt := Reference.NumberToBigInt;
  parseUnits := Reference.parseUnits;
  formatUnits := Reference.formatUnits;
  AbiParameters := list Reference.AbiType;
  parseAbiParameters := Reference.parseAbiParameters;
  encodeAbiParameters := Reference.encodeAbiParameters
|}.

(** ** Sample inputs *)

Module Sample.

Definition config : Config := {|
  DEFAULT_DEADLINE := 300;
  ODDS_DECIMALS := 12;
  MAX_UINT_256 := 2 ^ 256 - 1
|}.

Definition token : BetToken := {|
  token_address := "0xToken";
  decimals := 6;
  isNative := false
|}.

Definition addresses : Contracts := {|
  proxyFront := "0xProxyFront";
  lp := "0xLp";
  prematchCore := "0xPrematchCore";
  prematchComboCore := "0xPrematchComboCore"
|}.

Definition pending : ReceiptState :=
  {| isSuccess := false; isError := false; error := None |}.

Definition succeeded : ReceiptState :=
  {| isSuccess := true; isError := false; error := None |}.

Definition failed : ReceiptState :=
  {| isSuccess := false; isError := true; error := Some "reverted" |}.

(** An allowance of 5 tokens, aggregate odds of 2.0. *)
Definition render : Render := {|
  betToken := token;
  contracts := addresses;
  allowance_data := Some 5000000%N;
  odds_totalOdds := Some 2000000000000;
  odds_conditionsOdds := Some [2000000000000];
  betReceipt := pending;
  Date_now := 1700000000000
|}.

Definition renderWith (receipt : ReceiptState) : Render := {|
  betToken := token;
  contracts := addresses;
  allowance_data := Some 5000000%N;
  odds_totalOdds := Some 2000000000000;
  odds_conditionsOdds := Some [2000000000000];
  betReceipt := receipt;
  Date_now := 1700000000000
|}.

(** The same render while the odds have not resolved. *)
Definition renderWithoutOdds : Render := {|
  betToken := token;
  contracts := addresses;
  allowance_data := Some 5000000%N;
  odds_totalOdds := None;
  odds_conditionsOdds := None;
  betReceipt := pending;
  Date_now := 1700000000000
|}.

(** The same render once the allowance is the maximal one. *)
Definition renderApproved : Render := {|
  betToken := token;
  contracts := addresses;
  allowance_data := Some (2 ^ 256 - 1)%N;
  odds_totalOdds := Some 2000000000000;
  odds_conditionsOdds := Some [2000000000000];
  betReceipt := pending;
  Date_now := 1700000000000
|}.

Definition propsWith (a : Amount) (l : list Selection) : Props := {|
  amount := a;
  slippage := 5;
  deadline := None;
  affiliate := "0xAffiliate";
  selections := l;
  onSuccess := true;
  onError := true
|}.

Definition first : Selection :=
  {| conditionId := ConditionStr "1"; outcomeId := OutcomeNum 2 |}.

Definition second : Selection :=
  {| conditionId := ConditionBig 255; outcomeId := OutcomeStr "4" |}.

Definition props : Props := propsWith (AmountStr "10") [first].
Definition emptyProps : Props := propsWith (AmountStr "10") [].
Definition zeroProps : Props := propsWith (AmountNum 0) [first].

(** A wallet that confirms every transaction. *)
Definition wallet : Wallet := {|
  Receipt := unit;
  approveTx_writeAsync := fun _ _ _ => inr "0xapprove";
  betTx_writeAsync := fun _ => inr "0xbet";
  waitForTransactionReceipt := fun _ => inr tt
|}.

(** What the sample render returns: approval is required. *)
Definition prepared : PreparedBet := {|
  ret_isApproveRequired := true;
  ret_conditionsOdds := conditionsOdds (rt := referenceRuntime) config render;
  ret_totalOdds := totalOdds (rt := referenceRuntime) config render;
  ret_submit := submit (rt := referenceRuntime) config wallet true render props
|}.

(** The receipt of the bet succeeds, and two more renders see it. *)
Definition successfulRenders : list (Render * Props) :=
  [(renderWith succeeded, props); (renderWith succeeded, props)].

(** The receipt of the bet fails, and two more renders see it. *)
Definition failedRenders : list (Render * Props) :=
  [(renderWith failed, props); (renderWith failed, props)].

(** A table of chains with one record. *)
Definition chains : gmap Z string := {[ 100 := "Gnosis" ]}.

End Sample.

(** ** Transitions of the receipt, deadlines, and more inputs *)

(** The number of renders in which [flag] holds, did not hold in the render
    before (or there is none), and the callback is supplied. *)
Fixpoint transitions (flag : ReceiptState -> bool) (supplied : Props -> bool)
    (previous : option ReceiptState) (renders : list (Render * Props)) : nat :=
  match renders with
  | [] => 0
  | (r, p) :: later =>
      (if match previous with
          | Some old => negb (flag old)
          | None => true
          end && flag (betReceipt r) && supplied p
       then 1 else 0)%nat
      + transitions flag supplied (Some (betReceipt r)) later
  end.


(** The [status] of a transaction receipt: a transaction that is mined
    has succeeded or was reverted. *)
Inductive ReceiptStatus : Type :=
| StatusSuccess
| StatusReverted.

(** The props [p] with the [deadline] prop replaced. *)
Definition withDeadline (d : option float) (p : Props) : Props := {|
  amount := amount p;
  slippage := slippage p;
  deadline := d;
  affiliate := affiliate p;
  selections := selections p;
  onSuccess := onSuccess p;
  onError := onError p
|}.

Module Cases.

(** The sample render with another allowance. *)
Definition renderAllowing (allowance : option N) : Render := {|
  betToken := Sample.token;
  contracts := Sample.addresses;
  allowance_data := allowance;
  odds_totalOdds := Some 2000000000000;
  odds_conditionsOdds := Some [2000000000000];
  betReceipt := Sample.pending;
  Date_now := 1700000000000
|}.

(** A native token with 18 decimals, and a render for it. *)
Definition nativeToken : BetToken := {|
  token_address := "0xNative";
  decimals := 18;
  isNative := true
|}.

Definition nativeRender : Render := {|
  betToken := nativeToken;
  contracts := Sample.addresses;
  allowance_data := None;
  odds_totalOdds := Some 2000000000000;
  odds_conditionsOdds := Some [2000000000000];
  betReceipt := Sample.pending;
  Date_now := 1700000000000
|}.

(** Props without callbacks. *)
Definition silentProps : Props := {|
  amount := AmountStr "10";
  slippage := 5;
  deadline := None;
  affiliate := "0xAffiliate";
  selections := [Sample.first];
  onSuccess := false;
  onError := false
|}.

(** A wallet whose user rejects every write. *)
Definition rejectingWallet : Wallet := {|
  Receipt := unit;
  approveTx_writeAsync := fun _ _ _ => inl "User rejected the request.";
  betTx_writeAsync := fun _ => inl "User rejected the request.";
  waitForTransactionReceipt := fun _ => inr tt
|}.

(** A wallet that sends every write, on a node that never confirms. *)
Definition timingOutWallet : Wallet := {|
  Receipt := unit;
  approveTx_writeAsync := fun _ _ _ => inr "0xapprove";
  betTx_writeAsync := fun _ => inr "0xbet";
  waitForTransactionReceipt := fun _ => inl "Timed out while waiting for transaction."
|}.

(** The bet of 10 tokens on the first sample selection at odds 2.0 and a
    slippage of 5, for the sample token and for the native one. *)
Definition sampleCall : BetCall := {|
  bet_to := "0xProxyFront";
  bet_lp := "0xLp";
  bet_core := "0xPrematchCore";
  bet_amount := 10000000;
  bet_expiresAt := 1700000300;
  bet_affiliate := "0xAffiliate";
  bet_minOdds := 1950000000000;
  bet_data :=
    "0x00000000000000000000000000000000000000000000000000000000000000010000000000000000000000000000000000000000000000000000000000000002";
  bet_value := 0
|}.

Definition nativeCall : BetCall := {|
  bet_to := "0xProxyFront";
  bet_lp := "0xLp";
  bet_core := "0xPrematchCore";
  bet_amount := 10000000000000000000;
  bet_expiresAt := 1700000300;
  bet_affiliate := "0xAffiliate";
  bet_minOdds := 1950000000000;
  bet_data :=
    "0x00000000000000000000000000000000000000000000000000000000000000010000000000000000000000000000000000000000000000000000000000000002";
  bet_value := 10000000000000000000
|}.

(** The sample props with a deadline of [0]. *)
Definition zeroDeadlineProps : Props := withDeadline (Some 0%float) Sample.props.

(** An amount below [1e-6], as a text, and one of [1e21], as a number:
    their texts [`${+amount}`] are ["1e-7"] and ["1e+21"]. *)
Definition tinyProps : Props := Sample.propsWith (AmountStr "0.0000001") [Sample.first].
Definition hugeProps : Props := Sample.propsWith (AmountNum 1e21) [Sample.first].



(** A wallet whose transactions are mined and reverted: the wait for the
    receipt resolves, with a receipt whose status is [StatusReverted]. *)
Definition revertingWallet : Wallet := {|
  Receipt := ReceiptStatus;
  approveTx_writeAsync := fun _ _ _ => inr "0xapprove";
  betTx_writeAsync := fun _ => inr "0xbet";
  waitForTransactionReceipt := fun _ => inr StatusReverted
|}.

(** The receipt succeeds while no callback is supplied; the callbacks are
    supplied in the two renders after it. *)
Definition lateRenders : list (Render * Props) :=
  [(Sample.renderWith Sample.succeeded, silentProps);
   (Sample.renderWith Sample.succeeded, Sample.props);
   (Sample.renderWith Sample.succeeded, Sample.props)].

(** The receipt fails in the same way. *)
Definition lateFailedRenders : list (Render * Props) :=
  [(Sample.renderWith Sample.failed, silentProps);
   (Sample.renderWith Sample.failed, Sample.props);
   (Sample.renderWith Sample.failed, Sample.props)].

End Cases.

(** * Properties *)

(** ** Approval *)

Section ApprovalFacts.
Context `{rt : JsRuntime}.

(** The approval rule where line 58 returns. [isApproveRequired] is true
    exactly when the token is not native and the allowance is strictly
    below the parsed spend; it is false for every native token; and it is
    false in every other case in which the allowance is missing, the amount
    is zero or NaN, or the spend parses (the cases in which line 58 cannot
    throw). The runtime fact used: a zero or NaN amount does not parse to a
    positive spend. *)
Theorem isApproveRequired_spec (r : Render) (p : Props) :
  (forall spend,
      Js.truthy (amountToNumber (amount p)) = false ->
      parseUnits (NumberToString (amountToNumber (amount p))) (decimals (betToken r))
      = Some spend ->
      spend <= 0) ->
  (isApproveRequired r p = Js.ret true
   <-> isNative (betToken r) = false /\ allowanceBelowSpend r p)
  /\ (isNative (betToken r) = true -> isApproveRequired r p = Js.ret false)
  /\ (allowance_data r = None
      \/ Js.truthy (amountToNumber (amount p)) = false
      \/ is_Some (parseUnits (NumberToString (amountToNumber (amount p)))
                    (decimals (betToken r))) ->
      (isApproveRequired r p = Js.ret false
       <-> ~ (isNative (betToken r) = false /\ allowanceBelowSpend r p))).
Proof.
  intros Hzero.
  unfold isApproveRequired, allowanceBelowSpend, Js.ret, Js.calling.
  destruct (isNative (betToken r)); simpl.
  { split; [|split].
    - split; [discriminate|intros [? _]; discriminate].
    - reflexivity.
    - intros _. split; [intros _ [? _]; discriminate|reflexivity]. }
  destruct (allowance_data r) as [allowance|].
  2:{ split; [|split].
      - split; [discriminate|]. intros [_ [a [s [Ha _]]]]. discriminate.
      - discriminate.
      - intros _. split; [|reflexivity].
        intros _ [_ [a [s [Ha _]]]]. discriminate. }
  destruct (Js.truthy (amountToNumber (amount p))) eqn:Htruthy.
  - destruct (parseUnits _ _) as [spend|]; simpl.
    + destruct (Z.ltb_spec (Z.of_N allowance) spend) as [Hlt|Hge].
      * split; [|split].
        -- split; [|reflexivity]. intros _. split; [reflexivity|].
           by exists allowance, spend.
        -- discriminate.
        -- intros _. split; [discriminate|]. intros Hno. exfalso. apply Hno.
           split; [reflexivity|]. by exists allowance, spend.
      * split; [|split].
        -- split; [discriminate|].
           intros [_ [a [s [[= <-] [[= <-] Hlt]]]]]. lia.
        -- discriminate.
        -- intros _. split; [|reflexivity].
           intros _ [_ [a [s [[= <-] [[= <-] Hlt]]]]]. lia.
    + split; [|split].
      * split; [discriminate|]. intros [_ [a [s [_ [Hs _]]]]]. discriminate.
      * discriminate.
      * intros [Hf|[Hf|[s Hs]]]; discriminate.
  - split; [|split].
    + split; [discriminate|].
      intros [_ [a [s [[= <-] [Hs Hlt]]]]].
      specialize (Hzero s eq_refl Hs). lia.
    + discriminate.
    + intros _. split; [|reflexivity].
      intros _ [_ [a [s [[= <-] [Hs Hlt]]]]].
      specialize (Hzero s eq_refl Hs). lia.
Qed.

End ApprovalFacts.

(** The rule on the reference runtime: an amount of "10" of a token with 6
    decimals against an allowance of 5000000 needs an approval; against the
    maximal allowance it needs none; and a zero amount needs none. *)
Lemma isApproveRequired_sample :
  isApproveRequired (rt := referenceRuntime) Sample.render Sample.props = Js.ret true
  /\ isApproveRequired (rt := referenceRuntime) Sample.renderApproved Sample.props
     = Js.ret false
  /\ isApproveRequired (rt := referenceRuntime) Sample.render Sample.zeroProps
     = Js.ret false.
Proof.
  split; [|split].
  - apply (proj1 (isApproveRequired_spec (rt := referenceRuntime)
                    Sample.render Sample.props
                    ltac:(intros spend Hfalsy; vm_compute in Hfalsy; discriminate))).
    split; [reflexivity|].
    exists 5000000%N, 10000000. repeat split; vm_compute; reflexivity.
  - apply (proj2 (proj2 (isApproveRequired_spec (rt := referenceRuntime)
                    Sample.renderApproved Sample.props
                    ltac:(intros spend Hfalsy; vm_compute in Hfalsy; discriminate)))).
    + right; right. exists 10000000. vm_compute. reflexivity.
    + intros [_ [allowance [spend [Hallowance [Hspend Hbelow]]]]].
      vm_compute in Hallowance, Hspend.
      injection Hallowance as <-. injection Hspend as <-. vm_compute in Hbelow.
      discriminate.
  - apply (proj2 (proj2 (isApproveRequired_spec (rt := referenceRuntime)
                    Sample.render Sample.zeroProps
                    ltac:(intros spend _ Hspend; vm_compute in Hspend;
                          injection Hspend as <-; reflexivity)))).
    + right; left. reflexivity.
    + intros [_ [allowance [spend [Hallowance [Hspend Hbelow]]]]].
      vm_compute in Hallowance, Hspend.
      injection Hallowance as <-. injection Hspend as <-. vm_compute in Hbelow.
      discriminate.
Defined.

(** C1. The claim fails at the amount "0.0000001" of a token with 6
    decimals whose allowance is loaded. The amount is the number 1e-7, which
    is not zero; its text [`${+amount}`] is "1e-7", which [parseUnits] does
    not accept; so line 58 throws, and the render returns no
    [isApproveRequired] where the claim has it false. [placeBet] converts
    the same amount through [toFixed] (lines 104-105) and gets the spend 0.
    An amount of 1e21, whose text is "1e+21", makes line 58 throw too. *)
Lemma isApproveRequired_throws_on_small_amount :
  isNative (betToken Sample.render) = false
  /\ allowance_data Sample.render = Some 5000000%N
  /\ Js.truthy (amountToNumber (rt := referenceRuntime) (amount Cases.tinyProps)) = true
  /\ NumberToString (JsRuntime := referenceRuntime)
       (amountToNumber (rt := referenceRuntime) (amount Cases.tinyProps))
     = "1e-7"
  /\ parseUnits (JsRuntime := referenceRuntime) "1e-7" (decimals (betToken Sample.render))
     = None
  /\ isApproveRequired (rt := referenceRuntime) Sample.render Cases.tinyProps
     = Js.throw (Js.ThrownBy "parseUnits")
  /\ usePrepareBet (rt := referenceRuntime) Sample.config Sample.wallet Sample.render
       Cases.tinyProps
     = Js.throw (Js.ThrownBy "parseUnits")
  /\ toRaw (rt := referenceRuntime)
       (amountToString (rt := referenceRuntime) (amount Cases.tinyProps))
       (decimals (betToken Sample.render))
     = Js.ret 0
  /\ isApproveRequired (rt := referenceRuntime) Sample.render Cases.hugeProps
     = Js.throw (Js.ThrownBy "parseUnits").
Proof. do 8 (split; [vm_compute; reflexivity|]). vm_compute. reflexivity. Qed.

(** ** Submitting *)

Section SubmitFacts.
Context `{rt : JsRuntime}.
Variable cfg : Config.
Variable wallet : Wallet.

(** The calls [approve] can have made when it settles. *)
Lemma approve_trace (r : Render) :
  let write := ApproveWrite (token_address (betToken r)) (proxyFront (contracts r))
                 (MAX_UINT_256 cfg) in
  fst (approve cfg wallet r) = [write]
  \/ (exists tx, fst (approve cfg wallet r) = [write; WaitForReceipt tx])
  \/ (exists tx, fst (approve cfg wallet r) = [write; WaitForReceipt tx; AllowanceRefetch]).
Proof.
  unfold approve, Async.bind, Async.call. simpl.
  destruct (approveTx_writeAsync wallet _ _ _) as [e|tx]; simpl; [by left|].
  destruct (waitForTransactionReceipt wallet tx) as [e|receipt]; simpl.
  - right; left. by exists tx.
  - right; right. by exists tx.
Qed.

(** The calls [placeBet] can have made when it settles. *)
Lemma placeBet_trace (r : Render) (p : Props) :
  fst (placeBet cfg wallet r p) = []
  \/ (exists call, fst (placeBet cfg wallet r p) = [BetWrite call])
  \/ (exists call tx, fst (placeBet cfg wallet r p) = [BetWrite call; WaitForReceipt tx]).
Proof.
  unfold placeBet, Async.bind, Async.call, Async.lift, Async.ret.
  destruct (oddsAvailable cfg r) as [odds|]; [|by left].
  destruct (prepareCall cfg r p odds) as [e|call]; simpl; [by left|].
  destruct (betTx_writeAsync wallet call) as [e|tx]; simpl.
  - right; left. by exists call.
  - destruct (waitForTransactionReceipt wallet tx) as [e|receipt]; simpl;
      right; right; by exists call, tx.
Qed.

(** C8, amended. When the approval write and the wait for its receipt both
    resolve, [approve] refetches the allowance exactly once, as its last
    call, after the wait, whatever the receipt is; and a refetch in the
    trace of [approve] means that both resolved: a rejected write or a
    rejected wait ends [approve] without a refetch. *)
Theorem approve_refetches_after_confirmation (r : Render) :
  let token := token_address (betToken r) in
  let spender := proxyFront (contracts r) in
  let written := approveTx_writeAsync wallet token spender (MAX_UINT_256 cfg) in
  (forall tx receipt,
      written = inr tx ->
      waitForTransactionReceipt wallet tx = inr receipt ->
      approve cfg wallet r
      = ([ApproveWrite token spender (MAX_UINT_256 cfg); WaitForReceipt tx; AllowanceRefetch],
         Js.ret tt))
  /\ (AllowanceRefetch ∈ fst (approve cfg wallet r) ->
      exists tx receipt,
        written = inr tx /\ waitForTransactionReceipt wallet tx = inr receipt)
  /\ (forall e, written = inl e ->
      approve cfg wallet r
      = ([ApproveWrite token spender (MAX_UINT_256 cfg)], Js.throw (Js.Rejected e)))
  /\ (forall tx e,
      written = inr tx ->
      waitForTransactionReceipt wallet tx = inl e ->
      approve cfg wallet r
      = ([ApproveWrite token spender (MAX_UINT_256 cfg); WaitForReceipt tx],
         Js.throw (Js.Rejected e))).
Proof.
  intros token spender written. subst token spender written.
  unfold approve, Async.bind, Async.call.
  repeat split.
  - intros tx receipt -> Hwait. simpl. rewrite Hwait. reflexivity.
  - destruct (approveTx_writeAsync wallet _ _ _) as [e|tx]; simpl.
    + intros Hin. apply list_elem_of_singleton in Hin. discriminate.
    + destruct (waitForTransactionReceipt wallet tx) as [e|receipt] eqn:Hwait; simpl.
      * intros Hin. repeat (apply elem_of_cons in Hin as [Hin|Hin]; [discriminate|]).
        by apply elem_of_nil in Hin.
      * intros _. by exists tx, receipt.
  - intros e ->. reflexivity.
  - intros tx e -> Hwait. simpl. rewrite Hwait. reflexivity.
Qed.

(** C4. In a render that reports [isApproveRequired], [submit] is [approve]
    and writes no bet; in a render that does not, [submit] is [placeBet]
    and neither writes an approval nor refetches the allowance. No
    invocation of [submit] makes both an approval write and a bet write. *)
Theorem submit_approves_or_bets (r : Render) (p : Props) (h : PreparedBet) :
  usePrepareBet cfg wallet r p = Js.ret h ->
  (ret_isApproveRequired h = true ->
     ret_submit h = approve cfg wallet r
     /\ forall call, BetWrite call ∉ fst (ret_submit h))
  /\ (ret_isApproveRequired h = false ->
     ret_submit h = placeBet cfg wallet r p
     /\ (forall token spender value, ApproveWrite token spender value ∉ fst (ret_submit h))
     /\ AllowanceRefetch ∉ fst (ret_submit h))
  /\ ~ ((exists token spender value, ApproveWrite token spender value ∈ fst (ret_submit h))
        /\ (exists call, BetWrite call ∈ fst (ret_submit h))).
Proof.
  unfold usePrepareBet, Js.bind, Js.ret.
  destruct (isApproveRequired r p) as [e|required]; [discriminate|].
  intros [= <-]. simpl.
  assert (Happrove : forall call, BetWrite call ∉ fst (approve cfg wallet r)).
  { intros call Hin.
    destruct (approve_trace r) as [H|[[tx H]|[tx H]]]; rewrite H in Hin;
      repeat (apply elem_of_cons in Hin as [Hin|Hin]; [discriminate|]);
      by apply elem_of_nil in Hin. }
  assert (Hbet : forall ev, (forall call, ev <> BetWrite call) ->
                            (forall tx, ev <> WaitForReceipt tx) ->
                            ev ∉ fst (placeBet cfg wallet r p)).
  { intros ev Hnw Hnr Hin.
    destruct (placeBet_trace r p) as [H|[[call H]|[call [tx H]]]]; rewrite H in Hin.
    - by apply elem_of_nil in Hin.
    - apply list_elem_of_singleton in Hin. by eapply Hnw.
    - apply elem_of_cons in Hin as [Hin|Hin]; [by eapply Hnw|].
      apply list_elem_of_singleton in Hin. by eapply Hnr. }
  split; [|split].
  - intros ->. simpl. split; [reflexivity|exact Happrove].
  - intros ->. simpl. split; [reflexivity|].
    split; [intros token spender value|]; apply Hbet; discriminate.
  - intros [[token [spender [value Ha]]] [call Hb]].
    destruct required; simpl in *.
    + by eapply Happrove.
    + eapply Hbet; [| |exact Ha]; discriminate.
Qed.

(** C6. Without aggregate odds ([totalOdds] is [undefined], or a number
    that is falsy) [placeBet] returns at once: it makes no call and it
    does not throw. *)
Theorem placeBet_without_odds (r : Render) (p : Props) :
  (totalOdds cfg r = None -> placeBet cfg wallet r p = ([], Js.ret tt))
  /\ (oddsAvailable cfg r = None -> placeBet cfg wallet r p = ([], Js.ret tt)).
Proof.
  assert (H : oddsAvailable cfg r = None -> placeBet cfg wallet r p = ([], Js.ret tt)).
  { unfold placeBet. intros ->. reflexivity. }
  split; [|exact H].
  intros Hnone. apply H. unfold oddsAvailable. by rewrite Hnone.
Qed.

End SubmitFacts.

(** A confirmed approval on the sample wallet: one refetch, after the wait. *)
Lemma approve_sample :
  approve Sample.config Sample.wallet Sample.render
  = ([ApproveWrite "0xToken" "0xProxyFront" (2 ^ 256 - 1);
      WaitForReceipt "0xapprove"; AllowanceRefetch], Js.ret tt).
Proof.
  apply (proj1 (approve_refetches_after_confirmation Sample.config Sample.wallet
                  Sample.render) "0xapprove" tt); reflexivity.
Defined.

(** C8, as stated, fails: an approval that is mined and reverted has
    failed; the wait for its receipt resolves all the same, with the
    reverted receipt, which [approve] does not look at; and [approve]
    refetches the allowance. *)
Lemma approve_refetches_after_revert :
  approveTx_writeAsync Cases.revertingWallet "0xToken" "0xProxyFront" (2 ^ 256 - 1)
  = inr "0xapprove"
  /\ waitForTransactionReceipt Cases.revertingWallet "0xapprove" = inr StatusReverted
  /\ approve Sample.config Cases.revertingWallet Sample.render
     = ([ApproveWrite "0xToken" "0xProxyFront" (2 ^ 256 - 1);
         WaitForReceipt "0xapprove"; AllowanceRefetch], Js.ret tt)
  /\ AllowanceRefetch ∈ fst (approve Sample.config Cases.revertingWallet Sample.render).
Proof.
  repeat split; try reflexivity.
  vm_compute. apply list_elem_of_further, list_elem_of_further, list_elem_of_here.
Qed.

(** In the sample render [submit] approves and writes no bet. *)
Lemma submit_sample :
  ret_submit Sample.prepared = approve Sample.config Sample.wallet Sample.render
  /\ forall call, BetWrite call ∉ fst (ret_submit Sample.prepared).
Proof.
  assert (Hrender : usePrepareBet (rt := referenceRuntime) Sample.config Sample.wallet
                      Sample.render Sample.props = Js.ret Sample.prepared).
  { vm_compute. reflexivity. }
  exact (proj1 (submit_approves_or_bets (rt := referenceRuntime) Sample.config
                  Sample.wallet Sample.render Sample.props Sample.prepared Hrender)
           eq_refl).
Defined.

(** While the odds have not resolved, [placeBet] does nothing. *)
Lemma placeBet_without_odds_sample :
  placeBet (rt := referenceRuntime) Sample.config Sample.wallet
    Sample.renderWithoutOdds Sample.props = ([], Js.ret tt).
Proof.
  apply (proj1 (placeBet_without_odds (rt := referenceRuntime) Sample.config
                  Sample.wallet Sample.renderWithoutOdds Sample.props)).
  reflexivity.
Defined.

(** ** Selections *)

Section SelectionFacts.
Context `{rt : JsRuntime}.
Variable cfg : Config.
Variable wallet : Wallet.


(** [Array.prototype.map] throws what the first failing callback throws. *)
Lemma mapE_throws {A B} (f : A -> Js.Exc B) (l : list A) (e : Js.exn) :
  Js.mapE f l = Js.throw e -> exists a, a ∈ l /\ f a = Js.throw e.
Proof.
  unfold Js.throw. induction l as [|a l IH]; simpl; [discriminate|].
  unfold Js.bind, Js.ret.
  destruct (f a) as [e'|b] eqn:Hfa.
  - intros [= ->]. exists a. split; [apply elem_of_cons; by left|exact Hfa].
  - destruct (Js.mapE f l) as [e'|bs]; [|discriminate].
    intros [= ->]. destruct (IH eq_refl) as [a' [Hin Ha']].
    exists a'. split; [apply elem_of_cons; by right|exact Ha'].
Qed.

(** Converting the identifiers of a selection throws only from [BigInt]. *)
Lemma selectionToBigInts_throws (s : Selection) (e : Js.exn) :
  selectionToBigInts s = Js.throw e -> e = Js.ThrownBy "BigInt".
Proof.
  unfold selectionToBigInts, conditionToBigInt, outcomeToBigInt,
    Js.bind, Js.calling, Js.throw, Js.ret.
  destruct (conditionId s) as [cs|cz], (outcomeId s) as [os|ox];
    simpl;
    repeat match goal with
           | |- context [StringToBigInt ?x] => destruct (StringToBigInt x)
           | |- context [NumberToBigInt ?x] => destruct (NumberToBigInt x)
           end; simpl; congruence.
Qed.

(** An exception of the selection encoding is the destructuring error
    only in the single branch, on an empty list. *)
Lemma encodeSelections_throws (r : Render) (p : Props) :
  encodeSelections r p = Js.throw destructureUndefined <-> selections p = [].
Proof.
  unfold encodeSelections, isCombo.
  split.
  - destruct (1 <? length (selections p))%nat eqn:Hlen.
    + destruct (Js.mapE _ _) as [e|tuple] eqn:Htuple; simpl.
      * intros [= ->]. apply mapE_throws in Htuple as [a [_ Ha]].
        apply selectionToBigInts_throws in Ha. discriminate.
      * unfold Js.calling. destruct (encodeAbiParameters _ _); discriminate.
    + destruct (selections p) as [|s l]; [reflexivity|]. simpl.
      destruct (selectionToBigInts s) as [e|co] eqn:Hs; simpl.
      * intros [= ->]. apply selectionToBigInts_throws in Hs. discriminate.
      * unfold Js.calling. destruct (encodeAbiParameters _ _); discriminate.
  - intros ->. reflexivity.
Qed.

(** C10. A list of at most one selection, the empty one included, takes
    the single branch; index 0 is in bounds exactly for a non-empty list;
    the selection encoding throws the destructuring error exactly on the
    empty list; [placeBet] can only throw it on the empty list, and does
    throw it there, before any write, whenever the odds are available and
    the amount, odds and deadline conversions succeed. *)
Theorem single_branch_index_in_bounds (r : Render) (p : Props) :
  ((length (selections p) <= 1)%nat -> isCombo p = false)
  /\ (is_Some (selections p !! 0%nat) <-> selections p <> [])
  /\ (encodeSelections r p = Js.throw destructureUndefined <-> selections p = [])
  /\ (snd (placeBet cfg wallet r p) = Js.throw destructureUndefined -> selections p = [])
  /\ (forall odds rawAmount rawMinOdds expiresAt,
        oddsAvailable cfg r = Some odds ->
        toRaw (amountToString (amount p)) (decimals (betToken r)) = Js.ret rawAmount ->
        toRaw (NumberToString (minOdds odds (slippage p))) (ODDS_DECIMALS cfg)
        = Js.ret rawMinOdds ->
        rawDeadline cfg r p = Js.ret expiresAt ->
        selections p = [] ->
        placeBet cfg wallet r p = ([], Js.throw destructureUndefined)).
Proof.
  split; [|split; [|split; [|split]]].
  - unfold isCombo. intros Hlen. apply Nat.ltb_ge. exact Hlen.
  - destruct (selections p) as [|s l]; simpl.
    + split; [intros [x Hx]; discriminate|congruence].
    + split; [discriminate|]. intros _. by exists s.
  - apply encodeSelections_throws.
  - unfold placeBet, Async.bind, Async.call, Async.lift, Async.ret, Js.throw, Js.ret.
    destruct (oddsAvailable cfg r) as [odds|]; [|discriminate].
    unfold prepareCall, Js.bind.
    destruct (toRaw _ _) as [e|rawAmount] eqn:Hamount.
    { simpl. intros [= ->]. revert Hamount.
      unfold toRaw, Js.bind, Js.calling.
      destruct (toFixed _ _); [destruct (parseUnits _ _)|]; discriminate. }
    destruct (toRaw _ (ODDS_DECIMALS cfg)) as [e|rawMinOdds] eqn:Hodds.
    { simpl. intros [= ->]. revert Hodds.
      unfold toRaw, Js.bind, Js.calling.
      destruct (toFixed _ _); [destruct (parseUnits _ _)|]; discriminate. }
    destruct (rawDeadline cfg r p) as [e|expiresAt] eqn:Hdeadline.
    { simpl. intros [= ->]. revert Hdeadline.
      unfold rawDeadline, Js.calling. destruct (NumberToBigInt _); discriminate. }
    destruct (encodeSelections r p) as [e|target] eqn:Htarget.
    { simpl. intros [= ->]. by apply encodeSelections_throws in Htarget. }
    simpl.
    destruct (betTx_writeAsync wallet _) as [e|tx]; simpl; [discriminate|].
    destruct (waitForTransactionReceipt wallet tx); discriminate.
  - intros odds rawAmount rawMinOdds expiresAt Hodds Hamount Hmin Hdeadline Hempty.
    unfold placeBet. rewrite Hodds.
    unfold prepareCall. rewrite Hamount, Hmin, Hdeadline. simpl.
    apply (encodeSelections_throws r) in Hempty. rewrite Hempty. reflexivity.
Qed.


End SelectionFacts.

(** Without selections the sample call throws on [selections[0]], before
    any write. *)
Lemma empty_selections_sample :
  placeBet (rt := referenceRuntime) Sample.config Sample.wallet
    Sample.renderApproved Sample.emptyProps = ([], Js.throw destructureUndefined).
Proof.
  apply (proj2 (proj2 (proj2 (proj2
           (single_branch_index_in_bounds (rt := referenceRuntime) Sample.config
              Sample.wallet Sample.renderApproved Sample.emptyProps))))
           2%float 10000000 1950000000000 1700000300);
    vm_compute; reflexivity.
Defined.


(** ** Callbacks *)

(** While the receipt stays successful, no render invokes [onSuccess]. *)
Lemma no_success_while_successful (s : ReceiptState) (later : list (Render * Props)) :
  isSuccess s = true ->
  Forall (fun rp => isSuccess (betReceipt (fst rp)) = true) later ->
  List.filter isOnSuccess (commitRenders (Some s) later) = [].
Proof.
  intros Hs Hlater. revert s Hs.
  induction Hlater as [|[r p] later Hr _ IH]; intros s Hs; simpl; [reflexivity|].
  simpl in Hr. rewrite List.filter_app, (IH _ Hr), app_nil_r.
  unfold commitEffects. simpl. rewrite Hs, Hr. simpl.
  destruct (negb _); [destruct (_ && _)|]; reflexivity.
Qed.

(** While the receipt stays failed, no render invokes [onError]. *)
Lemma no_error_while_failed (s : ReceiptState) (later : list (Render * Props)) :
  isError s = true ->
  Forall (fun rp => isError (betReceipt (fst rp)) = true) later ->
  List.filter isOnError (commitRenders (Some s) later) = [].
Proof.
  intros Hs Hlater. revert s Hs.
  induction Hlater as [|[r p] later Hr _ IH]; intros s Hs; simpl; [reflexivity|].
  simpl in Hr. rewrite List.filter_app, (IH _ Hr), app_nil_r.
  unfold commitEffects. simpl. rewrite Hs, Hr. simpl. rewrite app_nil_r.
  destruct (negb _); [destruct (_ && _)|]; reflexivity.
Qed.

(** Renders that see the flags of the render before them invoke nothing. *)
Lemma no_callback_while_unchanged (s : ReceiptState) (later : list (Render * Props)) :
  Forall (fun rp => isSuccess (betReceipt (fst rp)) = isSuccess s
                    /\ isError (betReceipt (fst rp)) = isError s) later ->
  commitRenders (Some s) later = [].
Proof.
  revert s. induction later as [|[r p] later IH]; intros s Hlater; [reflexivity|].
  apply Forall_cons in Hlater as [[Hs He] Hlater]. simpl in Hs, He. simpl.
  unfold commitEffects. simpl. rewrite Hs, He, !Bool.eqb_reflx. simpl.
  apply IH. eapply Forall_impl; [exact Hlater|].
  intros [r' p'] [Hs' He']. simpl in *. by rewrite Hs, He.
Qed.

(** C7. Take a render in which the bet receipt is successful, after a render
    in which it was not (or as the first render), followed by any number of
    renders that still see it successful: with [onSuccess] supplied, it is
    invoked exactly once over all these renders. The same holds for a failed
    receipt and [onError], which receives the error of the receipt of the
    render of the transition. Renders that see the same [isSuccess] and
    [isError] as the render before them invoke no callback. *)
Theorem callbacks_fire_once (previous : option ReceiptState)
    (r : Render) (p : Props) (later : list (Render * Props)) :
  ((forall old, previous = Some old -> isSuccess old = false) ->
   isSuccess (betReceipt r) = true ->
   onSuccess p = true ->
   Forall (fun rp => isSuccess (betReceipt (fst rp)) = true) later ->
   List.filter isOnSuccess (commitRenders previous ((r, p) :: later)) = [OnSuccess])
  /\ ((forall old, previous = Some old -> isError old = false) ->
      isError (betReceipt r) = true ->
      onError p = true ->
      Forall (fun rp => isError (betReceipt (fst rp)) = true) later ->
      List.filter isOnError (commitRenders previous ((r, p) :: later))
      = [OnError (error (betReceipt r))])
  /\ (Forall (fun rp => isSuccess (betReceipt (fst rp)) = isSuccess (betReceipt r)
                        /\ isError (betReceipt (fst rp)) = isError (betReceipt r)) later ->
      commitRenders (Some (betReceipt r)) later = []).
Proof.
  split; [|split].
  - intros Hprev Hs Hcb Hlater. simpl.
    rewrite List.filter_app, (no_success_while_successful _ _ Hs Hlater), app_nil_r.
    unfold commitEffects. rewrite Hs, Hcb.
    replace (React.runs (isSuccess <$> previous) true) with true.
    2:{ destruct previous as [old|]; simpl; [|reflexivity]. by rewrite (Hprev old eq_refl). }
    simpl.
    destruct (React.runs (isError <$> previous) (isError (betReceipt r)));
      [destruct (isError (betReceipt r) && onError p)|]; reflexivity.
  - intros Hprev Hs Hcb Hlater. simpl.
    rewrite List.filter_app, (no_error_while_failed _ _ Hs Hlater), app_nil_r.
    unfold commitEffects. rewrite Hs, Hcb.
    replace (React.runs (isError <$> previous) true) with true.
    2:{ destruct previous as [old|]; simpl; [|reflexivity]. by rewrite (Hprev old eq_refl). }
    simpl.
    destruct (React.runs (isSuccess <$> previous) (isSuccess (betReceipt r)));
      [destruct (isSuccess (betReceipt r) && onSuccess p)|]; reflexivity.
  - apply no_callback_while_unchanged.
Qed.

(** A receipt that turns successful, seen by two more renders, invokes
    [onSuccess] once; one that turns failed invokes [onError] once, with its
    error. *)
Lemma callbacks_sample :
  List.filter isOnSuccess
    (commitRenders (Some Sample.pending)
       ((Sample.renderWith Sample.succeeded, Sample.props) :: Sample.successfulRenders))
  = [OnSuccess]
  /\ List.filter isOnError
       (commitRenders (Some Sample.pending)
          ((Sample.renderWith Sample.failed, Sample.props) :: Sample.failedRenders))
     = [OnError (Some "reverted")].
Proof.
  split.
  - apply (proj1 (callbacks_fire_once (Some Sample.pending)
                    (Sample.renderWith Sample.succeeded) Sample.props
                    Sample.successfulRenders)).
    + intros old [= <-]. reflexivity.
    + reflexivity.
    + reflexivity.
    + repeat constructor.
  - apply (proj1 (proj2 (callbacks_fire_once (Some Sample.pending)
                    (Sample.renderWith Sample.failed) Sample.props
                    Sample.failedRenders))).
    + intros old [= <-]. reflexivity.
    + reflexivity.
    + reflexivity.
    + repeat constructor.
Defined.

(** ** The chain resolver *)

Section ChainResolverFacts.
Variable ChainData : Type.

(** C9, amended. For a chain identifier without a record in the table the
    resolver logs exactly one message and returns [undefined], without
    throwing; so it does without an active chain, and for the chain
    identifier [0] whatever the table holds. For a non-zero identifier with
    a record it returns the record and logs nothing. *)
Theorem useChainData_spec (chainsData : gmap Z ChainData) (chain : option Z) :
  (forall id, chain = Some id -> chainsData !! id = None ->
     useChainData chainsData chain = (["Selected network not supported."], None))
  /\ (chain = None ->
     useChainData chainsData chain = (["Selected network not supported."], None))
  /\ (chain = Some 0 ->
     useChainData chainsData chain = (["Selected network not supported."], None))
  /\ (forall id data, chain = Some id -> id <> 0 -> chainsData !! id = Some data ->
     useChainData chainsData chain = ([], Some data)).
Proof.
  unfold useChainData.
  split; [|split; [|split]].
  - intros id -> Hnone. destruct (id =? 0); [reflexivity|]. by rewrite Hnone.
  - intros ->. reflexivity.
  - intros ->. reflexivity.
  - intros id data -> Hid Hsome.
    apply Z.eqb_neq in Hid. by rewrite Hid, Hsome.
Qed.

End ChainResolverFacts.

(** A chain of the sample table resolves to its record, silently; a chain
    outside of it resolves to nothing, with the message. *)
Lemma useChainData_sample :
  useChainData Sample.chains (Some 100) = ([], Some "Gnosis")
  /\ useChainData Sample.chains (Some 137)
     = (["Selected network not supported."], None).
Proof.
  split.
  - apply (proj2 (proj2 (proj2 (useChainData_spec string Sample.chains (Some 100))))
             100 "Gnosis"); [reflexivity|lia|reflexivity].
  - apply (proj1 (useChainData_spec string Sample.chains (Some 137)) 137);
      reflexivity.
Defined.

(** C9, as stated, fails for the identifier [0]: a table with a record for
    it still resolves to [undefined], with the message logged. *)
Lemma useChainData_zero_id :
  ({[0 := tt]} : gmap Z unit) !! 0 = Some tt
  /\ useChainData ({[0 := tt]} : gmap Z unit) (Some 0)
     = (["Selected network not supported."], None).
Proof. split; reflexivity. Qed.

(** ** Minimum odds *)

(** Facts about the binary64 operations, from their specification in
    [SpecFloat]: how a rounded result is made of two shifts, when rounding
    cannot overflow, and the signs of differences, products and quotients. *)

Module Binary64Facts.
Import Binary64.

Abbreviation fexp := (SpecFloat.fexp prec emax).

Lemma fexp_eq d : fexp d = Z.max (d - 53) (-1074).
Proof. reflexivity. Qed.

(** The number of binary digits is the binary logarithm plus one. *)
Lemma digits2_pos_log2 (m : positive) : Zpos (digits2_pos m) = Z.log2 (Zpos m) + 1.
Proof.
  induction m as [m IH|m IH|]; simpl digits2_pos; [| |reflexivity].
  - rewrite Pos2Z.inj_succ, IH.
    change (Zpos m~1) with (2 * Zpos m + 1).
    rewrite Z.log2_succ_double by lia. lia.
  - rewrite Pos2Z.inj_succ, IH.
    change (Zpos m~0) with (2 * Zpos m).
    rewrite Z.log2_double by lia. lia.
Qed.

Lemma Zdigits2_log2 (m : Z) : 0 < m -> Zdigits2 m = Z.log2 m + 1.
Proof. destruct m; try lia. intros _. apply digits2_pos_log2. Qed.

Lemma Zdigits2_bounds (m : Z) :
  0 < m -> 2 ^ (Zdigits2 m - 1) <= m < 2 ^ Zdigits2 m.
Proof.
  intros Hm. rewrite Zdigits2_log2 by assumption.
  replace (Z.log2 m + 1 - 1) with (Z.log2 m) by lia.
  replace (Z.log2 m + 1) with (Z.succ (Z.log2 m)) by lia.
  apply Z.log2_spec. assumption.
Qed.

Lemma Zdigits2_nonneg (m : Z) : 0 <= m -> 0 <= Zdigits2 m.
Proof. destruct m; simpl; lia. Qed.

(** One step of the right shift halves a non-negative mantissa. *)
Lemma shr_1_m (mrs : shr_record) :
  0 <= shr_m mrs -> shr_m (shr_1 mrs) = Z.div2 (shr_m mrs).
Proof.
  destruct mrs as [m r s]. simpl. intros Hm.
  destruct m as [|p|p]; [reflexivity| |lia].
  destruct p; reflexivity.
Qed.

Lemma iter_shr_1_m (n : positive) (mrs : shr_record) :
  0 <= shr_m mrs ->
  shr_m (SpecFloat.iter_pos shr_1 n mrs) = Z.shiftr (shr_m mrs) (Zpos n).
Proof.
  revert mrs. induction n as [n IH|n IH|]; intros mrs Hm; simpl SpecFloat.iter_pos.
  - assert (H1 : 0 <= shr_m (shr_1 mrs)).
    { rewrite shr_1_m by assumption. rewrite Z.div2_div. apply Z.div_pos; lia. }
    assert (H2 : 0 <= shr_m (SpecFloat.iter_pos shr_1 n (shr_1 mrs))).
    { rewrite IH by assumption. apply Z.shiftr_nonneg. assumption. }
    rewrite IH, IH, shr_1_m by assumption.
    rewrite Z.div2_spec, !Z.shiftr_shiftr by lia. f_equal. lia.
  - assert (H2 : 0 <= shr_m (SpecFloat.iter_pos shr_1 n mrs)).
    { rewrite IH by assumption. apply Z.shiftr_nonneg. assumption. }
    rewrite IH, IH by assumption.
    rewrite !Z.shiftr_shiftr by lia. f_equal. lia.
  - rewrite shr_1_m by assumption. apply Z.div2_spec.
Qed.

Lemma shr_record_of_loc_m m l : shr_m (shr_record_of_loc m l) = m.
Proof. destruct l as [|[]]; reflexivity. Qed.

(** [shr_fexp] shifts the mantissa right up to the exponent [fexp]. *)
Lemma shr_fexp_spec (m e : Z) (l : location) :
  0 <= m ->
  let n := Z.max 0 (fexp (Zdigits2 m + e) - e) in
  shr_m (fst (shr_fexp prec emax m e l)) = Z.shiftr m n
  /\ snd (shr_fexp prec emax m e l) = e + n.
Proof.
  intros Hm n. unfold shr_fexp, shr. subst n.
  destruct (fexp (Zdigits2 m + e) - e) as [|p|p] eqn:Hn; simpl fst; simpl snd.
  - rewrite shr_record_of_loc_m. split; [reflexivity|lia].
  - rewrite iter_shr_1_m by (rewrite shr_record_of_loc_m; assumption).
    rewrite shr_record_of_loc_m. split; [f_equal; lia|lia].
  - rewrite shr_record_of_loc_m. split; [reflexivity|lia].
Qed.

Lemma round_nearest_even_cases m l :
  round_nearest_even m l = m \/ round_nearest_even m l = m + 1.
Proof.
  destruct l as [|[]]; simpl; auto. destruct (Z.even m); auto.
Qed.

(** The result of rounding a non-negative mantissa, by its two shifts. *)
Lemma binary_round_aux_spec (sx : bool) (mx ex : Z) (lx : location) :
  0 <= mx ->
  let n1 := Z.max 0 (fexp (Zdigits2 mx + ex) - ex) in
  let m1 := Z.shiftr mx n1 in
  let e1 := ex + n1 in
  exists m2, (m2 = m1 \/ m2 = m1 + 1) /\
    let n2 := Z.max 0 (fexp (Zdigits2 m2 + e1) - e1) in
    binary_round_aux prec emax sx mx ex lx =
    match Z.shiftr m2 n2 with
    | Z0 => S754_zero sx
    | Zpos m => if e1 + n2 <=? 971 then S754_finite sx m (e1 + n2) else S754_infinity sx
    | Zneg _ => S754_nan
    end.
Proof.
  intros Hm n1 m1 e1. unfold binary_round_aux.
  destruct (shr_fexp_spec mx ex lx Hm) as [Hm1 He1].
  destruct (shr_fexp prec emax mx ex lx) as [mrs' e'] eqn:H1. simpl in Hm1, He1.
  set (m2 := round_nearest_even (shr_m mrs') (loc_of_shr_record mrs')).
  assert (Hm2 : m2 = m1 \/ m2 = m1 + 1).
  { subst m2 m1 n1. rewrite <- Hm1. apply round_nearest_even_cases. }
  assert (H0 : 0 <= m2).
  { assert (0 <= m1) by (apply Z.shiftr_nonneg; assumption). lia. }
  exists m2. split; [assumption|].
  destruct (shr_fexp_spec m2 e' loc_Exact H0) as [Hm3 He3].
  destruct (shr_fexp prec emax m2 e' loc_Exact) as [mrs'' e''] eqn:H2. simpl in Hm3, He3.
  subst e1 n1. rewrite <- He1. simpl. rewrite Hm3, He3. reflexivity.
Qed.

Lemma shl_align_spec (mx : positive) (ex ex' : Z) :
  snd (shl_align mx ex ex') = Z.min ex ex'
  /\ Zpos (fst (shl_align mx ex ex')) = Zpos mx * 2 ^ (ex - Z.min ex ex').
Proof.
  unfold shl_align.
  destruct (ex' - ex) as [|d|d] eqn:Hd; simpl fst; simpl snd.
  - replace (Z.min ex ex') with ex by lia. rewrite Z.sub_diag. split; lia.
  - replace (Z.min ex ex') with ex by lia. rewrite Z.sub_diag. split; lia.
  - replace (Z.min ex ex') with ex' by lia. split; [reflexivity|].
    replace (ex - ex') with (Zpos d) by lia.
    change (Pos.iter xO mx d) with (shift_pos d mx).
    rewrite shift_pos_correct. change (Zpower_pos 2 d) with (2 ^ Zpos d). lia.
Qed.

Lemma Zdigits2_mul_pow2 (m k : Z) :
  0 < m -> 0 <= k -> Zdigits2 (m * 2 ^ k) = Zdigits2 m + k.
Proof.
  intros Hm Hk.
  assert (0 < 2 ^ k) by (apply Z.pow_pos_nonneg; lia).
  rewrite !Zdigits2_log2 by nia.
  rewrite Z.log2_mul_pow2 by lia. lia.
Qed.

Lemma Zdigits2_le (a b : Z) : 0 <= a -> a <= b -> Zdigits2 a <= Zdigits2 b.
Proof.
  intros Ha Hab.
  destruct (Z.eq_dec a 0) as [->|Hne]; [apply Zdigits2_nonneg; lia|].
  rewrite !Zdigits2_log2 by lia.
  apply Z.add_le_mono_r, Z.log2_le_mono. assumption.
Qed.

Lemma Zdigits2_shiftr (m n : Z) :
  0 < m -> 0 <= n -> 0 < Z.shiftr m n -> Zdigits2 (Z.shiftr m n) = Zdigits2 m - n.
Proof.
  intros Hm Hn Hpos.
  rewrite !Zdigits2_log2 by assumption.
  rewrite Z.log2_shiftr by assumption.
  assert (Hlt : n <= Z.log2 m).
  { destruct (Z.le_gt_cases n (Z.log2 m)) as [Hle|Hgt]; [assumption|].
    exfalso. rewrite Z.shiftr_eq_0 in Hpos by lia. lia. }
  lia.
Qed.

Lemma fexp_le (a b : Z) : a <= b -> fexp a <= fexp b.
Proof. rewrite !fexp_eq. lia. Qed.

(** Rounding a positive integer mantissa: align to [fexp], shift, round,
    renormalise. *)
Lemma binary_round_spec (sx : bool) (M : positive) (ez : Z) :
  let d := Zdigits2 (Zpos M) + ez in
  let e1 := fexp d in
  let lo := Z.min ez e1 in
  let m1 := Z.shiftr (Zpos M * 2 ^ (ez - lo)) (e1 - lo) in
  exists m2, (m2 = m1 \/ m2 = m1 + 1) /\
    let n2 := Z.max 0 (fexp (Zdigits2 m2 + e1) - e1) in
    binary_round prec emax sx M ez =
    match Z.shiftr m2 n2 with
    | Z0 => S754_zero sx
    | Zpos m => if e1 + n2 <=? 971 then S754_finite sx m (e1 + n2) else S754_infinity sx
    | Zneg _ => S754_nan
    end.
Proof.
  intros d e1 lo m1. unfold binary_round.
  change (SpecFloat.fexp prec emax (Zpos (digits2_pos M) + ez)) with e1.
  destruct (shl_align_spec M ez e1) as [Hlo Hmz].
  destruct (shl_align M ez e1) as [mz ez'] eqn:Halign. cbn [fst snd] in Hlo, Hmz.
  fold lo in Hlo, Hmz. subst ez'.
  assert (Hd : Zdigits2 (Zpos mz) + lo = d).
  { rewrite Hmz, Zdigits2_mul_pow2 by lia. subst d. lia. }
  destruct (binary_round_aux_spec sx (Zpos mz) lo loc_Exact) as [m2 [Hm2 Hres]]; [lia|].
  rewrite Hd in Hm2, Hres. fold e1 in Hm2, Hres.
  replace (Z.max 0 (e1 - lo)) with (e1 - lo) in Hm2, Hres by lia.
  replace (lo + (e1 - lo)) with e1 in Hres by lia.
  rewrite Hmz in Hm2. fold m1 in Hm2.
  exists m2. split; [assumption|]. exact Hres.
Qed.

Lemma finite_nonneg_nonneg f : finite_nonneg f -> nonneg f.
Proof. destruct f as [[]|[]| |[] m e]; simpl; tauto. Qed.

Lemma binary_round_aux_nonneg (mx ex : Z) (lx : location) :
  0 <= mx -> nonneg (binary_round_aux prec emax false mx ex lx).
Proof.
  intros Hm.
  destruct (binary_round_aux_spec false mx ex lx Hm) as [m2 [Hm2 ->]].
  assert (0 <= Z.shiftr mx (Z.max 0 (fexp (Zdigits2 mx + ex) - ex)))
    by (apply Z.shiftr_nonneg; assumption).
  match goal with |- context [Z.shiftr m2 ?n] =>
    assert (Hm3 : 0 <= Z.shiftr m2 n) by (apply Z.shiftr_nonneg; lia);
    destruct (Z.shiftr m2 n) as [|m3|m3]
  end; simpl; [trivial| |lia].
  destruct (_ <=? 971); simpl; trivial.
Qed.

Lemma bounded_spec (m : positive) (e : Z) :
  bounded prec emax m e = true ->
  fexp (Zdigits2 (Zpos m) + e) = e /\ e <= 971.
Proof.
  unfold bounded, canonical_mantissa. intros H.
  apply andb_true_iff in H as [Hc He].
  apply Z.eqb_eq in Hc. apply Z.leb_le in He.
  split; [exact Hc|]. change (emax - prec) with 971 in He. exact He.
Qed.

(** Rounding a positive value that lies below a representable number does
    not overflow. *)
Lemma binary_round_below (sx : bool) (M mx : positive) (ez ex : Z) :
  bounded prec emax mx ex = true ->
  ez <= ex ->
  Zpos M < Zpos mx * 2 ^ (ex - ez) ->
  binary_round prec emax sx M ez = S754_zero sx
  \/ exists m e, binary_round prec emax sx M ez = S754_finite sx m e.
Proof.
  intros Hb Hez Hlt.
  destruct (bounded_spec _ _ Hb) as [Hcanon Hmax].
  destruct (binary_round_spec sx M ez) as [m2 [Hm2 ->]].
  remember (Zdigits2 (Zpos M) + ez) as d eqn:Ed.
  remember (fexp d) as e1 eqn:Ee1.
  remember (Z.min ez e1) as lo eqn:Elo.
  remember (Z.shiftr (Zpos M * 2 ^ (ez - lo)) (e1 - lo)) as m1 eqn:Em1.
  assert (Hd : d <= Zdigits2 (Zpos mx) + ex).
  { subst d.
    assert (Zdigits2 (Zpos M) <= Zdigits2 (Zpos mx * 2 ^ (ex - ez)))
      by (apply Zdigits2_le; lia).
    rewrite Zdigits2_mul_pow2 in H by lia. lia. }
  assert (He1 : e1 <= ex).
  { rewrite <- Hcanon, Ee1. apply fexp_le. exact Hd. }
  assert (He1' : d - 53 <= e1 /\ -1074 <= e1) by (rewrite Ee1, fexp_eq; lia).
  assert (Hpow : 0 < 2 ^ (ez - lo)) by (apply Z.pow_pos_nonneg; lia).
  assert (Hm1 : 0 <= m1 < 2 ^ 53).
  { assert (H0 : 0 <= m1) by (rewrite Em1; apply Z.shiftr_nonneg; nia).
    split; [exact H0|].
    destruct (Z.eq_dec m1 0) as [->|Hne]; [reflexivity|].
    assert (Hpos : 0 < m1) by lia.
    pose proof Hpos as Hdig. rewrite Em1 in Hdig.
    apply Zdigits2_shiftr in Hdig; [|nia|lia].
    rewrite <- Em1, Zdigits2_mul_pow2 in Hdig by lia.
    pose proof (Zdigits2_bounds m1 Hpos) as [_ Hub].
    eapply Z.lt_le_trans; [exact Hub|].
    apply Z.pow_le_mono_r; lia. }
  assert (Hn2 : e1 + Z.max 0 (fexp (Zdigits2 m2 + e1) - e1) <= 971).
  { destruct (Z.eq_dec e1 ex) as [Heq|Hne].
    - assert (Hlo : lo = ez) by lia.
      assert (Hm1x : m1 < Zpos mx).
      { rewrite Em1, Hlo, Z.sub_diag, Z.mul_1_r, Heq.
        rewrite Z.shiftr_div_pow2 by lia.
        apply Z.div_lt_upper_bound; [apply Z.pow_pos_nonneg; lia|]. lia. }
      assert (Hdig : Zdigits2 m2 <= Zdigits2 (Zpos mx)) by (apply Zdigits2_le; lia).
      assert (fexp (Zdigits2 m2 + e1) <= e1).
      { apply Z.le_trans with (fexp (Zdigits2 (Zpos mx) + ex)); [|lia].
        apply fexp_le. lia. }
      lia.
    - assert (Hdig : Zdigits2 m2 <= Zdigits2 (2 ^ 53)) by (apply Zdigits2_le; lia).
      change (Zdigits2 (2 ^ 53)) with 54 in Hdig.
      assert (fexp (Zdigits2 m2 + e1) <= e1 + 1) by (rewrite fexp_eq; lia).
      lia. }
  match goal with |- context [Z.shiftr m2 ?n] =>
    assert (Hm3 : 0 <= Z.shiftr m2 n) by (apply Z.shiftr_nonneg; lia);
    destruct (Z.shiftr m2 n) as [|m3|m3]
  end; [left; reflexivity| |lia].
  - right. apply Z.leb_le in Hn2. rewrite Hn2. eauto.
Qed.

(** Rounding a positive value of the normal range keeps 53 digits and
    does not lower the exponent. *)
Lemma binary_round_normal (sx : bool) (M : positive) (ez : Z) :
  -1021 <= Zdigits2 (Zpos M) + ez ->
  binary_round prec emax sx M ez = S754_infinity sx
  \/ exists m e,
       binary_round prec emax sx M ez = S754_finite sx m e
       /\ 2 ^ 52 <= Zpos m
       /\ Zdigits2 (Zpos M) + ez - 53 <= e.
Proof.
  intros Hnormal.
  destruct (binary_round_spec sx M ez) as [m2 [Hm2 ->]].
  remember (Zdigits2 (Zpos M) + ez) as d eqn:Ed.
  remember (fexp d) as e1 eqn:Ee1.
  remember (Z.min ez e1) as lo eqn:Elo.
  remember (Z.shiftr (Zpos M * 2 ^ (ez - lo)) (e1 - lo)) as m1 eqn:Em1.
  assert (He1 : e1 = d - 53) by (rewrite Ee1, fexp_eq; lia).
  assert (Hpow : 0 < 2 ^ (ez - lo)) by (apply Z.pow_pos_nonneg; lia).
  assert (Hdz : Zdigits2 (Zpos M * 2 ^ (ez - lo)) = d - lo).
  { rewrite Zdigits2_mul_pow2 by lia. lia. }
  assert (Hpos : 0 < m1).
  { rewrite Em1, Z.shiftr_div_pow2 by lia.
    apply Z.div_str_pos. split; [apply Z.pow_pos_nonneg; lia|].
    pose proof (Zdigits2_bounds (Zpos M * 2 ^ (ez - lo)) ltac:(nia)) as [Hlb _].
    eapply Z.le_trans; [|exact Hlb].
    apply Z.pow_le_mono_r; lia. }
  assert (Hdig : Zdigits2 m1 = 53).
  { pose proof Hpos as H. rewrite Em1 in H.
    apply Zdigits2_shiftr in H; [|nia|lia].
    rewrite <- Em1, Hdz in H. lia. }
  pose proof (Zdigits2_bounds m1 Hpos) as [Hlb Hub]. rewrite Hdig in Hlb, Hub.
  change (2 ^ (53 - 1)) with (2 ^ 52) in Hlb.
  assert (Hdig2 : 53 <= Zdigits2 m2 <= 54).
  { split.
    - rewrite <- Hdig. apply Zdigits2_le; lia.
    - change 54 with (Zdigits2 (2 ^ 53)). apply Zdigits2_le; lia. }
  remember (Z.max 0 (fexp (Zdigits2 m2 + e1) - e1)) as n2 eqn:En2.
  assert (Hn2 : (n2 = 0 /\ Zdigits2 m2 = 53) \/ (n2 = 1 /\ Zdigits2 m2 = 54)).
  { rewrite En2, fexp_eq. lia. }
  assert (Hm3 : 2 ^ 52 <= Z.shiftr m2 n2).
  { destruct Hn2 as [[-> _]|[-> H54]].
    - rewrite Z.shiftr_0_r. lia.
    - pose proof (Zdigits2_bounds m2 ltac:(lia)) as [Hlb2 _].
      rewrite H54 in Hlb2. change (2 ^ (54 - 1)) with (2 ^ 53) in Hlb2.
      rewrite Z.shiftr_div_pow2 by lia.
      apply Z.div_le_lower_bound; [reflexivity|].
      change (2 ^ 1 * 2 ^ 52) with (2 ^ 53). exact Hlb2. }
  destruct (Z.shiftr m2 n2) as [|m3|m3] eqn:E3.
  - exfalso. assert (0 < 2 ^ 52) by reflexivity. lia.
  - destruct (e1 + n2 <=? 971); [right|left; reflexivity].
    exists m3, (e1 + n2). split; [reflexivity|]. split; [exact Hm3|]. lia.
  - exfalso. assert (0 < 2 ^ 52) by reflexivity. lia.
Qed.

(** What the order of two valid positive numbers says about their
    mantissas, once aligned. *)
Lemma SFleb_aligned (mx my : positive) (ex ey : Z) :
  bounded prec emax mx ex = true ->
  bounded prec emax my ey = true ->
  SFleb (S754_finite false my ey) (S754_finite false mx ex) = true ->
  Zpos my * 2 ^ (ey - Z.min ex ey) <= Zpos mx * 2 ^ (ex - Z.min ex ey).
Proof.
  intros Hx Hy Hle.
  destruct (bounded_spec _ _ Hx) as [Hcx _].
  destruct (bounded_spec _ _ Hy) as [Hcy _].
  rewrite fexp_eq in Hcx, Hcy.
  unfold SFleb, SFcompare in Hle.
  destruct (Z.compare_spec ey ex) as [Heq|Hlt|Hgt]; [| |discriminate].
  - subst ey. replace (Z.min ex ex) with ex by lia.
    rewrite Z.sub_diag, !Z.mul_1_r.
    rewrite Pos.compare_cont_spec in Hle. simpl in Hle.
    destruct (Pos.compare_spec my mx); try discriminate; lia.
  - replace (Z.min ex ey) with ey by lia.
    rewrite Z.sub_diag, Z.mul_1_r.
    pose proof (Zdigits2_bounds (Zpos mx) ltac:(lia)) as [Hlbx _].
    pose proof (Zdigits2_bounds (Zpos my) ltac:(lia)) as [_ Huby].
    assert (Hdx : Zdigits2 (Zpos mx) = 53) by lia.
    assert (Hdy : Zdigits2 (Zpos my) <= 53) by lia.
    rewrite Hdx in Hlbx. change (2 ^ (53 - 1)) with (2 ^ 52) in Hlbx.
    assert (Zpos my < 2 ^ 53).
    { eapply Z.lt_le_trans; [exact Huby|]. apply Z.pow_le_mono_r; lia. }
    assert (2 ^ 1 <= 2 ^ (ex - ey)) by (apply Z.pow_le_mono_r; lia).
    change (2 ^ 1) with 2 in *. change (2 ^ 53) with (2 * 2 ^ 52) in *. nia.
Qed.

(** The difference of two valid positive numbers, the larger first, is
    zero or a positive finite number. *)
Lemma SFsub_finite_nonneg (mx my : positive) (ex ey : Z) :
  bounded prec emax mx ex = true ->
  bounded prec emax my ey = true ->
  SFleb (S754_finite false my ey) (S754_finite false mx ex) = true ->
  finite_nonneg (SF64sub (S754_finite false mx ex) (S754_finite false my ey)).
Proof.
  intros Hx Hy Hle.
  pose proof (SFleb_aligned _ _ _ _ Hx Hy Hle) as Hal.
  unfold SF64sub, SFsub. cbv zeta.
  destruct (shl_align_spec mx ex (Z.min ex ey)) as [_ Hmx].
  destruct (shl_align_spec my ey (Z.min ex ey)) as [_ Hmy].
  replace (Z.min ex (Z.min ex ey)) with (Z.min ex ey) in Hmx by lia.
  replace (Z.min ey (Z.min ex ey)) with (Z.min ex ey) in Hmy by lia.
  unfold cond_Zopp. rewrite Hmx, Hmy.
  remember (Zpos mx * 2 ^ (ex - Z.min ex ey)) as Mx eqn:EMx.
  remember (Zpos my * 2 ^ (ey - Z.min ex ey)) as My eqn:EMy.
  assert (0 < My).
  { rewrite EMy. apply Z.mul_pos_pos; [lia|apply Z.pow_pos_nonneg; lia]. }
  destruct (Mx - My) as [|M|M] eqn:EM; [exact I| |lia].
  unfold binary_normalize.
  assert (Hbelow : Zpos M < Zpos mx * 2 ^ (ex - Z.min ex ey)) by lia.
  destruct (binary_round_below false M mx (Z.min ex ey) ex Hx ltac:(lia) Hbelow)
    as [->|[m [e ->]]]; exact I.
Qed.

Lemma SFmul_nonneg (a b : spec_float) :
  finite_nonneg a -> finite_nonneg b -> nonneg (SF64mul a b).
Proof.
  destruct a as [[]|[]| |[] ma ea]; simpl; try tauto;
    destruct b as [[]|[]| |[] mb eb]; simpl; try tauto.
  intros _ _. apply binary_round_aux_nonneg. lia.
Qed.

Lemma SFdiv_nonneg (a : spec_float) (mb : positive) (eb : Z) :
  nonneg a -> nonneg (SF64div a (S754_finite false mb eb)).
Proof.
  destruct a as [[]|[]| |[] ma ea]; simpl; try tauto.
  intros _. unfold SFdiv_core_binary. cbv zeta.
  match goal with |- context [Z.div_eucl ?a ?b] =>
    assert (Ha : 0 <= a);
    [|pose proof (Z_div_mod a b ltac:(lia));
      pose proof (Z.div_pos a b Ha ltac:(lia)) as Hq; unfold Z.div in Hq;
      destruct (Z.div_eucl a b) as [q r]]
  end.
  - match goal with |- 0 <= match ?s with _ => _ end => destruct s end;
      [lia|apply Z.shiftl_nonneg; lia|lia].
  - apply binary_round_aux_nonneg. exact Hq.
Qed.

(** Adding a non-negative number to one gives at least one. *)
Lemma SFadd_one_ge (a : spec_float) :
  nonneg a -> SFleb SF_one (SF64add SF_one a) = true.
Proof.
  destruct a as [[]|[]| |[] ma ea]; simpl nonneg; try tauto; intros _;
    try reflexivity.
  unfold SF64add, SF_one, SFadd. cbv zeta.
  remember (Z.min (-52) ea) as ez eqn:Eez.
  destruct (shl_align_spec 4503599627370496 (-52) ez) as [_ H1].
  destruct (shl_align_spec ma ea ez) as [_ Ha].
  replace (Z.min (-52) ez) with ez in H1 by lia.
  replace (Z.min ea ez) with ez in Ha by lia.
  unfold cond_Zopp.
  remember (fst (shl_align 4503599627370496 (-52) ez)) as M1 eqn:EM1.
  remember (fst (shl_align ma ea ez)) as Ma eqn:EMa.
  change (Zpos M1 + Zpos Ma) with (Zpos (M1 + Ma)).
  unfold binary_normalize.
  assert (Hone : Zpos M1 = 2 ^ (- ez)).
  { rewrite H1. change (Zpos 4503599627370496) with (2 ^ 52).
    rewrite <- Z.pow_add_r by lia. f_equal. lia. }
  assert (Hdig : 1 - ez <= Zdigits2 (Zpos (M1 + Ma))).
  { rewrite Zdigits2_log2 by lia.
    assert (- ez <= Z.log2 (Zpos (M1 + Ma))); [|lia].
    apply Z.log2_le_pow2; [lia|]. rewrite <- Hone. lia. }
  destruct (binary_round_normal false (M1 + Ma) ez ltac:(lia))
    as [->|[m [e [-> [Hm He]]]]]; [reflexivity|].
  unfold SFleb, SFcompare.
  destruct (Z.compare_spec (-52) e) as [Heq|Hlt|Hgt]; [|reflexivity|lia].
  rewrite Pos.compare_cont_spec. simpl.
  change (2 ^ 52) with (Zpos 4503599627370496) in Hm.
  destruct (Pos.compare_spec 4503599627370496 m) as [Hc|Hc|Hc];
    [reflexivity|reflexivity|].
  exfalso. apply (Z.lt_irrefl (Zpos m)).
  eapply Z.lt_le_trans; [apply Pos2Z.pos_lt_pos; exact Hc|exact Hm].
Qed.

Lemma Prim2SF_one : Prim2SF 1 = SF_one.
Proof. reflexivity. Qed.

Lemma Prim2SF_hundred : Prim2SF 100 = SF_hundred.
Proof. reflexivity. Qed.

Lemma Prim2SF_zero : Prim2SF 0 = S754_zero false.
Proof. reflexivity. Qed.

(** A finite number that is at least one is a valid positive finite
    number. *)
Lemma finite_ge_one (t : float) :
  PrimFloat.is_finite t = true ->
  (1 <=? t)%float = true ->
  exists m e, Prim2SF t = S754_finite false m e /\ bounded prec emax m e = true.
Proof.
  intros Hfin Hle.
  rewrite FloatAxioms.leb_spec, Prim2SF_one in Hle.
  unfold PrimFloat.is_finite, PrimFloat.is_infinity in Hfin.
  rewrite FloatAxioms.eqb_spec, FloatAxioms.abs_spec in Hfin.
  pose proof (Prim2SF_valid t) as Hvalid.
  destruct (Prim2SF t) as [[]|[]| |[] m e]; try discriminate.
  - rewrite orb_true_r in Hfin. discriminate.
  - exists m, e. split; [reflexivity|exact Hvalid].
Qed.

(** A number between zero and one hundred is a zero or a valid positive
    finite number that is at most one hundred. *)
Lemma between_zero_and_hundred (s : float) :
  (0 <=? s)%float = true ->
  (s <=? 100)%float = true ->
  (exists sign, Prim2SF s = S754_zero sign)
  \/ exists m e, Prim2SF s = S754_finite false m e
                 /\ bounded prec emax m e = true
                 /\ SFleb (S754_finite false m e) SF_hundred = true.
Proof.
  intros Hlo Hhi.
  rewrite FloatAxioms.leb_spec, Prim2SF_zero in Hlo.
  rewrite FloatAxioms.leb_spec, Prim2SF_hundred in Hhi.
  pose proof (Prim2SF_valid s) as Hvalid.
  destruct (Prim2SF s) as [sign|[]| |[] m e]; try discriminate.
  - left. exists sign. reflexivity.
  - right. exists m, e. split; [reflexivity|]. split; [exact Hvalid|exact Hhi].
Qed.

End Binary64Facts.


(** For finite aggregate odds of at least 1 and a slippage in [0, 100],
    the number of line 107 is at least 1 in double arithmetic. *)
Theorem minOdds_at_least_one (totalOdds slippage : float) :
  PrimFloat.is_finite totalOdds = true ->
  (1 <=? totalOdds)%float = true ->
  (0 <=? slippage)%float = true ->
  (slippage <=? 100)%float = true ->
  (1 <=? minOdds totalOdds slippage)%float = true.
Proof.
  intros Hfin Hone Hlo Hhi.
  unfold minOdds.
  rewrite FloatAxioms.leb_spec, FloatAxioms.add_spec, FloatAxioms.div_spec, FloatAxioms.mul_spec, !FloatAxioms.sub_spec.
  rewrite Binary64Facts.Prim2SF_one, Binary64Facts.Prim2SF_hundred.
  apply Binary64Facts.SFadd_one_ge, Binary64Facts.SFdiv_nonneg, Binary64Facts.SFmul_nonneg.
  - destruct (Binary64Facts.finite_ge_one _ Hfin Hone) as [m [e [Ht Hb]]].
    rewrite Ht. apply Binary64Facts.SFsub_finite_nonneg; [exact Hb|reflexivity|].
    rewrite FloatAxioms.leb_spec, Binary64Facts.Prim2SF_one, Ht in Hone. exact Hone.
  - destruct (Binary64Facts.between_zero_and_hundred _ Hlo Hhi)
      as [[sign Hs]|[m [e [Hs [Hb Hle]]]]]; rewrite Hs.
    + exact I.
    + apply Binary64Facts.SFsub_finite_nonneg; [reflexivity|exact Hb|exact Hle].
Qed.

(** The minimum odds at aggregate odds 2.0 and slippage 5. *)
Lemma minOdds_at_least_one_sample : (1 <=? minOdds 2 5)%float = true.
Proof. apply minOdds_at_least_one; reflexivity. Defined.

(** C3. The minimum odds that [placeBet] sends are those of the formula
    [1 + (totalOdds - 1) * (100 - slippage) / 100], shown with
    [ODDS_DECIMALS] digits by [toFixed] and scaled by [parseUnits] at
    [ODDS_DECIMALS]; aggregate odds of 2.0 with a slippage of 5 give 1.95,
    sent as 1950000000000 at 12 odds decimals. *)
Theorem placeBet_minOdds :
  (forall (rt : JsRuntime) (cfg : Config) (wallet : Wallet)
          (r : Render) (p : Props) (odds : float) (call : BetCall),
      oddsAvailable cfg r = Some odds ->
      prepareCall cfg r p odds = Js.ret call ->
      head (fst (placeBet cfg wallet r p)) = Some (BetWrite call)
      /\ Js.ret (bet_minOdds call)
         = (try! shown := Js.calling "toFixed"
              (toFixed
                 (parseFloat
                    (NumberToString (1 + (odds - 1) * (100 - slippage p) / 100)%float))
                 (ODDS_DECIMALS cfg)) in
            Js.calling "parseUnits"
              (parseUnits (NumberToString (StringToNumber shown)) (ODDS_DECIMALS cfg))))
  /\ minOdds 2 5 = 1.95%float
  /\ toRaw (rt := referenceRuntime) (Reference.NumberToString (minOdds 2 5)) 12
     = Js.ret 1950000000000.
Proof.
  split; [|split; vm_compute; reflexivity].
  intros rt cfg wallet r p odds call Hodds Hcall.
  split.
  - unfold placeBet. rewrite Hodds, Hcall.
    unfold Async.bind, Async.call, Async.lift, Async.ret. simpl.
    destruct (betTx_writeAsync wallet call) as [e|tx]; simpl; [reflexivity|].
    destruct (waitForTransactionReceipt wallet tx); reflexivity.
  - change (Js.ret (bet_minOdds call)
            = toRaw (NumberToString (minOdds odds (slippage p))) (ODDS_DECIMALS cfg)).
    revert Hcall. unfold prepareCall, Js.bind.
    destruct (toRaw _ (decimals (betToken r))) as [e|rawAmount]; [discriminate|].
    destruct (toRaw _ (ODDS_DECIMALS cfg)) as [e|rawMinOdds]; [discriminate|].
    destruct (rawDeadline cfg r p) as [e|expiresAt]; [discriminate|].
    destruct (encodeSelections r p) as [e|target]; [discriminate|].
    intros [= <-]. reflexivity.
Qed.

(** The sample bet carries minimum odds of 1.95. *)
Lemma placeBet_minOdds_sample :
  exists call,
    head (fst (placeBet (rt := referenceRuntime) Sample.config Sample.wallet
                 Sample.renderApproved Sample.props)) = Some (BetWrite call)
    /\ bet_minOdds call = 1950000000000.
Proof.
  destruct (prepareCall (rt := referenceRuntime) Sample.config Sample.renderApproved
              Sample.props 2%float) as [e|call] eqn:Hcall;
    [vm_compute in Hcall; discriminate|].
  exists call.
  destruct (proj1 placeBet_minOdds referenceRuntime Sample.config Sample.wallet
              Sample.renderApproved Sample.props 2%float call
              ltac:(vm_compute; reflexivity) Hcall) as [Hhead Hmin].
  split; [exact Hhead|].
  vm_compute in Hmin. injection Hmin as Hmin. exact Hmin.
Defined.

(** ** The minimum odds that are sent *)

Section MinOddsSent.
Context `{rt : JsRuntime}.
Variable cfg : Config.
Variable wallet : Wallet.


End MinOddsSent.


(** * Further properties *)

(** ** The render and the approval flag *)

Section RenderFacts.
Context `{rt : JsRuntime}.
Variable cfg : Config.
Variable wallet : Wallet.

(** A render of [usePrepareBet] throws only from [parseUnits] on line 58:
    exactly when the token is not native, the allowance is loaded, the
    amount is a non-zero number and its text does not parse. *)
Theorem usePrepareBet_throws (r : Render) (p : Props) (e : Js.exn) :
  usePrepareBet cfg wallet r p = Js.throw e
  <-> e = Js.ThrownBy "parseUnits"
      /\ isNative (betToken r) = false
      /\ is_Some (allowance_data r)
      /\ Js.truthy (amountToNumber (amount p)) = true
      /\ parseUnits (NumberToString (amountToNumber (amount p))) (decimals (betToken r))
         = None.
Proof.
  unfold usePrepareBet, isApproveRequired, Js.bind, Js.calling, Js.throw, Js.ret.
  destruct (isNative (betToken r)); simpl.
  { split; [discriminate|]. intros (_ & Hnative & _). discriminate. }
  destruct (allowance_data r) as [allowance|].
  2:{ split; [discriminate|]. intros (_ & _ & [x Hx] & _). discriminate. }
  destruct (Js.truthy (amountToNumber (amount p))).
  2:{ split; [discriminate|]. intros (_ & _ & _ & Ht & _). discriminate. }
  destruct (parseUnits _ _) as [spend|].
  - split; [discriminate|]. intros (_ & _ & _ & _ & Hs). discriminate.
  - split.
    + intros [= <-]. repeat split. by exists allowance.
    + intros (-> & _). reflexivity.
Qed.

(** More allowance never makes an approval newly required: in two renders
    of the same token and amount, if the smaller allowance needs no
    approval, neither does the larger one. *)
Theorem isApproveRequired_more_allowance (r r' : Render) (p p' : Props)
    (allowance allowance' : N) :
  betToken r = betToken r' ->
  amount p = amount p' ->
  allowance_data r = Some allowance ->
  allowance_data r' = Some allowance' ->
  (allowance <= allowance')%N ->
  isApproveRequired r p = Js.ret false ->
  isApproveRequired r' p' = Js.ret false.
Proof.
  unfold isApproveRequired, Js.bind, Js.calling, Js.ret.
  intros <- <- -> -> Hle.
  destruct (isNative (betToken r)); simpl; [reflexivity|].
  destruct (Js.truthy (amountToNumber (amount p))); [|reflexivity].
  destruct (parseUnits _ _) as [spend|]; [|discriminate].
  intros [= Hfalse]. f_equal.
  apply Z.ltb_ge in Hfalse. apply Z.ltb_ge. lia.
Qed.

(** A spend that parses to zero or to a negative amount never requires an
    approval. *)
Theorem isApproveRequired_nonpositive_spend (r : Render) (p : Props) (spend : Z) :
  parseUnits (NumberToString (amountToNumber (amount p))) (decimals (betToken r))
  = Some spend ->
  spend <= 0 ->
  isApproveRequired r p = Js.ret false.
Proof.
  unfold isApproveRequired, Js.bind, Js.calling, Js.ret.
  intros -> Hspend.
  destruct (isNative (betToken r)); simpl; [reflexivity|].
  destruct (allowance_data r) as [allowance|]; [|reflexivity].
  destruct (Js.truthy (amountToNumber (amount p))); [|reflexivity].
  f_equal. apply Z.ltb_ge. lia.
Qed.

End RenderFacts.

(** A non-finite amount cannot be parsed: the render throws. A spend of
    exactly the allowance needs no approval, and neither does the maximal
    allowance. A negative amount never needs one. *)
Lemma usePrepareBet_throws_sample :
  usePrepareBet (rt := referenceRuntime) Sample.config Sample.wallet Sample.render
    (Sample.propsWith (AmountNum infinity) [Sample.first])
  = Js.throw (Js.ThrownBy "parseUnits").
Proof.
  apply (proj2 (usePrepareBet_throws (rt := referenceRuntime) Sample.config Sample.wallet
                  Sample.render (Sample.propsWith (AmountNum infinity) [Sample.first])
                  (Js.ThrownBy "parseUnits"))).
  repeat split; try (vm_compute; reflexivity).
  exists 5000000%N. reflexivity.
Defined.

Lemma isApproveRequired_more_allowance_sample :
  isApproveRequired (rt := referenceRuntime) Sample.renderApproved Sample.props
  = Js.ret false.
Proof.
  apply (isApproveRequired_more_allowance (rt := referenceRuntime)
           (Cases.renderAllowing (Some 10000000%N)) Sample.renderApproved
           Sample.props Sample.props 10000000%N (2 ^ 256 - 1)%N);
    try reflexivity.
  vm_compute. discriminate.
Defined.

Lemma isApproveRequired_nonpositive_spend_sample :
  isApproveRequired (rt := referenceRuntime) Sample.render
    (Sample.propsWith (AmountStr "-5") [Sample.first])
  = Js.ret false.
Proof.
  apply (isApproveRequired_nonpositive_spend (rt := referenceRuntime) Sample.render
           (Sample.propsWith (AmountStr "-5") [Sample.first]) (-5000000)).
  - vm_compute. reflexivity.
  - lia.
Defined.

(** ** What [placeBet] and [submit] send *)

(** Splits a membership in an explicit list into its cases. *)
Ltac elem_cases H :=
  cbn [fst snd app] in H;
  repeat match type of H with
         | _ ∈ [] => apply elem_of_nil in H; destruct H
         | _ ∈ _ :: _ => apply elem_of_cons in H as [H|H]
         end.

Section PlaceBetFacts.
Context `{rt : JsRuntime}.
Variable cfg : Config.
Variable wallet : Wallet.

(** The selection encoding throws the destructuring error, or what
    [BigInt] or [encodeAbiParameters] throw. *)
Lemma encodeSelections_exceptions (r : Render) (p : Props) (e : Js.exn) :
  encodeSelections r p = Js.throw e ->
  e = destructureUndefined
  \/ e = Js.ThrownBy "BigInt"
  \/ e = Js.ThrownBy "encodeAbiParameters".
Proof.
  unfold encodeSelections.
  destruct (isCombo p).
  - destruct (Js.mapE _ _) as [e'|tuple] eqn:Htuple; simpl.
    + intros [= ->]. apply mapE_throws in Htuple as [a [_ Ha]].
      apply selectionToBigInts_throws in Ha. by right; left.
    + unfold Js.calling. destruct (encodeAbiParameters _ _); [discriminate|].
      intros [= <-]. by right; right.
  - destruct (selections p !! 0%nat) as [s|]; simpl.
    + destruct (selectionToBigInts s) as [e'|co] eqn:Hs; simpl.
      * intros [= ->]. apply selectionToBigInts_throws in Hs. by right; left.
      * unfold Js.calling. destruct (encodeAbiParameters _ _); [discriminate|].
        intros [= <-]. by right; right.
    + intros [= <-]. by left.
Qed.

(** The amount and odds conversions throw what [toFixed] or [parseUnits]
    throw. *)
Lemma toRaw_exceptions (text : string) (digits : Z) (e : Js.exn) :
  toRaw text digits = Js.throw e ->
  e = Js.ThrownBy "toFixed" \/ e = Js.ThrownBy "parseUnits".
Proof.
  unfold toRaw, Js.bind, Js.calling, Js.throw.
  destruct (toFixed _ _) as [shown|]; [|intros [= <-]; by left].
  destruct (parseUnits _ _); [discriminate|]. intros [= <-]. by right.
Qed.

(** The exceptions of the synchronous part of [placeBet]: none is a
    rejection. *)
Lemma prepareCall_exceptions (r : Render) (p : Props) (odds : float) (e : Js.exn) :
  prepareCall cfg r p odds = Js.throw e ->
  e = destructureUndefined
  \/ exists callee, e = Js.ThrownBy callee
       /\ callee ∈ ["toFixed"; "parseUnits"; "BigInt"; "encodeAbiParameters"].
Proof.
  unfold prepareCall, Js.bind.
  destruct (toRaw _ (decimals _)) as [e1|rawAmount] eqn:H1.
  { intros [= ->]. right. apply toRaw_exceptions in H1 as [->| ->];
      eexists; (split; [reflexivity|]); set_solver. }
  destruct (toRaw _ (ODDS_DECIMALS _)) as [e2|rawMinOdds] eqn:H2.
  { intros [= ->]. right. apply toRaw_exceptions in H2 as [->| ->];
      eexists; (split; [reflexivity|]); set_solver. }
  destruct (rawDeadline cfg r p) as [e3|expiresAt] eqn:H3.
  { intros [= ->]. right. unfold rawDeadline, Js.calling in H3.
    destruct (NumberToBigInt _); [discriminate|]. injection H3 as <-.
    eexists; (split; [reflexivity|]); set_solver. }
  destruct (encodeSelections r p) as [e4|target] eqn:H4; [|discriminate].
  intros [= ->]. apply encodeSelections_exceptions in H4 as [->|[->| ->]];
    [by left|right..]; eexists; (split; [reflexivity|]); set_solver.
Qed.

(** The fields of the call that do not depend on the conversions. *)
Lemma prepareCall_fields (r : Render) (p : Props) (odds : float) (call : BetCall) :
  prepareCall cfg r p odds = Js.ret call ->
  bet_to call = proxyFront (contracts r)
  /\ bet_lp call = lp (contracts r)
  /\ bet_affiliate call = affiliate p
  /\ bet_value call = (if isNative (betToken r) then bet_amount call else 0).
Proof.
  unfold prepareCall, Js.bind, Js.ret.
  destruct (toRaw _ (decimals _)) as [e1|rawAmount]; [discriminate|].
  destruct (toRaw _ (ODDS_DECIMALS _)) as [e2|rawMinOdds]; [discriminate|].
  destruct (rawDeadline cfg r p) as [e3|expiresAt]; [discriminate|].
  destruct (encodeSelections r p) as [e4|target]; [discriminate|].
  intros [= <-]. simpl. auto.
Qed.

(** An exception of [placeBet] that is raised before the write leaves an
    empty trace and is one of the synchronous exceptions of lines 104-142;
    any other exception is the rejection of the write or of the wait, and
    the trace then starts with the write. *)
Theorem placeBet_exceptions (r : Render) (p : Props) (e : Js.exn) :
  snd (placeBet cfg wallet r p) = Js.throw e ->
  (fst (placeBet cfg wallet r p) = []
   /\ (exists odds, oddsAvailable cfg r = Some odds
                    /\ prepareCall cfg r p odds = Js.throw e)
   /\ (e = destructureUndefined
       \/ exists callee, e = Js.ThrownBy callee
            /\ callee ∈ ["toFixed"; "parseUnits"; "BigInt"; "encodeAbiParameters"]))
  \/ (exists reason call, e = Js.Rejected reason
        /\ head (fst (placeBet cfg wallet r p)) = Some (BetWrite call)).
Proof.
  unfold placeBet, Async.bind, Async.call, Async.lift, Async.ret.
  destruct (oddsAvailable cfg r) as [odds|]; [|discriminate].
  destruct (prepareCall cfg r p odds) as [e'|call] eqn:Hcall; simpl.
  - intros [= ->]. left. split; [reflexivity|]. split.
    + by exists odds.
    + by apply prepareCall_exceptions in Hcall.
  - destruct (betTx_writeAsync wallet call) as [reason|tx]; simpl.
    + intros [= <-]. right. by exists reason, call.
    + destruct (waitForTransactionReceipt wallet tx) as [reason|receipt]; simpl;
        [|discriminate].
      intros [= <-]. right. by exists reason, call.
Qed.

(** [placeBet] waits only for the transaction that its own write returned;
    after a write it resolves exactly when the write and the wait both
    resolve; and a rejected write is not waited for. *)
Theorem placeBet_confirms_its_write (r : Render) (p : Props) :
  (forall tx, WaitForReceipt tx ∈ fst (placeBet cfg wallet r p) ->
     exists call, fst (placeBet cfg wallet r p) = [BetWrite call; WaitForReceipt tx]
                  /\ betTx_writeAsync wallet call = inr tx)
  /\ (forall call, BetWrite call ∈ fst (placeBet cfg wallet r p) ->
        (snd (placeBet cfg wallet r p) = Js.ret tt
         <-> exists tx receipt, betTx_writeAsync wallet call = inr tx
               /\ waitForTransactionReceipt wallet tx = inr receipt))
  /\ (forall call reason, BetWrite call ∈ fst (placeBet cfg wallet r p) ->
        betTx_writeAsync wallet call = inl reason ->
        placeBet cfg wallet r p = ([BetWrite call], Js.throw (Js.Rejected reason))).
Proof.
  unfold placeBet, Async.bind, Async.call, Async.lift, Async.ret.
  destruct (oddsAvailable cfg r) as [odds|].
  2:{ split; [|split]; [intros ? H|intros ? H|intros ? ? H]; elem_cases H. }
  destruct (prepareCall cfg r p odds) as [e'|call]; simpl.
  { split; [|split]; [intros ? H|intros ? H|intros ? ? H]; elem_cases H. }
  destruct (betTx_writeAsync wallet call) as [reason|tx] eqn:Hwrite; simpl.
  - split; [|split].
    + intros tx H. elem_cases H. discriminate.
    + intros c H. elem_cases H. injection H as ->. rewrite Hwrite. split.
      * discriminate.
      * intros (tx & receipt & Htx & _). discriminate.
    + intros c reason' H. elem_cases H. injection H as ->. rewrite Hwrite.
      by intros [= ->].
  - destruct (waitForTransactionReceipt wallet tx) as [reason|receipt] eqn:Hwait;
      simpl; (split; [|split]).
    + intros tx' H. elem_cases H; [discriminate|]. injection H as ->.
      by exists call.
    + intros c H. elem_cases H; [|discriminate]. injection H as ->.
      rewrite Hwrite. split; [discriminate|].
      intros (tx' & receipt & [= <-] & Hreceipt). rewrite Hwait in Hreceipt.
      discriminate.
    + intros c reason' H. elem_cases H; [|discriminate]. injection H as ->.
      rewrite Hwrite. discriminate.
    + intros tx' H. elem_cases H; [discriminate|]. injection H as ->.
      by exists call.
    + intros c H. elem_cases H; [|discriminate]. injection H as ->.
      rewrite Hwrite. split; [|reflexivity]. intros _. by exists tx, receipt.
    + intros c reason' H. elem_cases H; [|discriminate]. injection H as ->.
      rewrite Hwrite. discriminate.
Qed.

(** Every bet that [submit] writes is written in a render that needs no
    approval and whose raw aggregate odds are defined and not zero; it goes
    to the proxy front with the liquidity pool and the affiliate of the
    props, and carries the bet amount as value for a native token, and no
    value otherwise. *)
Theorem written_bets_are_addressed (required : bool) (r : Render) (p : Props)
    (call : BetCall) :
  BetWrite call ∈ fst (submit cfg wallet required r p) ->
  required = false
  /\ (exists raw, odds_totalOdds r = Some raw /\ raw <> 0)
  /\ (exists odds, oddsAvailable cfg r = Some odds
                   /\ prepareCall cfg r p odds = Js.ret call)
  /\ bet_to call = proxyFront (contracts r)
  /\ bet_lp call = lp (contracts r)
  /\ bet_affiliate call = affiliate p
  /\ bet_value call = (if isNative (betToken r) then bet_amount call else 0).
Proof.
  unfold submit. destruct required.
  { intros H. exfalso. revert H.
    unfold approve, Async.bind, Async.call. simpl.
    destruct (approveTx_writeAsync wallet _ _ _) as [e|tx]; simpl.
    - intros H. elem_cases H. discriminate.
    - destruct (waitForTransactionReceipt wallet tx); simpl;
        intros H; elem_cases H; discriminate. }
  unfold placeBet, Async.bind, Async.call, Async.lift, Async.ret.
  destruct (oddsAvailable cfg r) as [odds|] eqn:Hodds.
  2:{ intros H. elem_cases H. }
  destruct (prepareCall cfg r p odds) as [e'|c] eqn:Hcall; simpl.
  { intros H. elem_cases H. }
  intros H.
  assert (c = call) as ->.
  { destruct (betTx_writeAsync wallet c) as [reason|tx]; simpl in H.
    - elem_cases H. by injection H.
    - destruct (waitForTransactionReceipt wallet tx); simpl in H;
        elem_cases H; try discriminate; by injection H. }
  split; [reflexivity|]. split.
  { unfold oddsAvailable, totalOdds in Hodds.
    destruct (odds_totalOdds r) as [raw|]; [|discriminate].
    exists raw. split; [reflexivity|].
    destruct (raw =? 0) eqn:Hraw; [discriminate|]. by apply Z.eqb_neq. }
  split; [by exists odds|].
  by apply prepareCall_fields in Hcall.
Qed.

(** A [deadline] prop of [0], [-0] or [NaN] is the same as none: the bet
    expires [DEFAULT_DEADLINE] seconds after the current time. *)
Theorem falsy_deadline_is_default (r : Render) (p : Props) (d : float) :
  deadline p = Some d ->
  Js.truthy d = false ->
  placeBet cfg wallet r p = placeBet cfg wallet r (withDeadline None p)
  /\ forall call, BetWrite call ∈ fst (placeBet cfg wallet r p) ->
       NumberToBigInt (Math_floor (Date_now r / 1000) + DEFAULT_DEADLINE cfg)%float
       = Some (bet_expiresAt call).
Proof.
  intros Hd Hfalsy.
  assert (Hraw : rawDeadline cfg r p
                 = Js.calling "BigInt"
                     (NumberToBigInt
                        (Math_floor (Date_now r / 1000) + DEFAULT_DEADLINE cfg)%float)).
  { unfold rawDeadline, deadlineOrDefault. by rewrite Hd, Hfalsy. }
  split.
  - unfold placeBet, prepareCall. rewrite Hraw. reflexivity.
  - unfold placeBet, Async.bind, Async.call, Async.lift, Async.ret.
    destruct (oddsAvailable cfg r) as [odds|]; [|intros c H; elem_cases H].
    unfold prepareCall, Js.bind. rewrite Hraw.
    destruct (toRaw _ (decimals _)) as [e1|rawAmount];
      [intros c H; elem_cases H|].
    destruct (toRaw _ (ODDS_DECIMALS _)) as [e2|rawMinOdds];
      [intros c H; elem_cases H|].
    unfold Js.calling.
    destruct (NumberToBigInt _) as [expiresAt|]; [|intros c H; elem_cases H].
    destruct (encodeSelections r p) as [e4|target]; [intros c H; elem_cases H|].
    simpl. intros c H.
    match type of H with
    | context [BetWrite ?made] => assert (c = made) as ->
    end; [|reflexivity].
    destruct (betTx_writeAsync wallet _) as [reason|tx]; simpl in H.
    + elem_cases H. by injection H.
    + destruct (waitForTransactionReceipt wallet tx); simpl in H;
        elem_cases H; try discriminate; by injection H.
Qed.

(** A bet in the trace of [placeBet] is the prepared call. *)
Lemma placeBet_writes_prepared (r : Render) (p : Props) (call : BetCall) :
  BetWrite call ∈ fst (placeBet cfg wallet r p) ->
  exists odds, oddsAvailable cfg r = Some odds
               /\ prepareCall cfg r p odds = Js.ret call.
Proof.
  unfold placeBet, Async.bind, Async.call, Async.lift, Async.ret.
  destruct (oddsAvailable cfg r) as [odds|]; [|intros H; elem_cases H].
  destruct (prepareCall cfg r p odds) as [e'|c] eqn:Hcall; simpl;
    [intros H; elem_cases H|].
  intros H. exists odds. split; [reflexivity|]. rewrite Hcall. unfold Js.ret. f_equal.
  destruct (betTx_writeAsync wallet c) as [reason|tx]; simpl in H.
  - elem_cases H. by injection H.
  - destruct (waitForTransactionReceipt wallet tx); simpl in H;
      elem_cases H; try discriminate; by injection H.
Qed.

(** With a native token a render never throws and never asks for an
    approval: [submit] is [placeBet], and each bet it writes carries its
    amount as value. *)
Theorem native_token_needs_no_approval (r : Render) (p : Props) :
  isNative (betToken r) = true ->
  exists h, usePrepareBet cfg wallet r p = Js.ret h
    /\ ret_isApproveRequired h = false
    /\ ret_submit h = placeBet cfg wallet r p
    /\ forall call, BetWrite call ∈ fst (ret_submit h) ->
         bet_value call = bet_amount call.
Proof.
  intros Hnative. unfold usePrepareBet, isApproveRequired. rewrite Hnative. simpl.
  eexists. split; [reflexivity|]. simpl. repeat split.
  intros call H. apply placeBet_writes_prepared in H as (odds & _ & Hcall).
  apply prepareCall_fields in Hcall as (_ & _ & _ & Hvalue).
  by rewrite Hnative in Hvalue.
Qed.

End PlaceBetFacts.

(** A text that is no number makes [placeBet] throw before it writes. *)
Lemma placeBet_exceptions_sample :
  fst (placeBet (rt := referenceRuntime) Sample.config Sample.wallet
         Sample.renderApproved (Sample.propsWith (AmountStr "abc") [Sample.first]))
  = [].
Proof.
  destruct (placeBet_exceptions (rt := referenceRuntime) Sample.config Sample.wallet
              Sample.renderApproved (Sample.propsWith (AmountStr "abc") [Sample.first])
              (Js.ThrownBy "parseUnits") ltac:(vm_compute; reflexivity))
    as [[Hnone _]|(reason & call & Hrejected & _)].
  - exact Hnone.
  - discriminate Hrejected.
Defined.

(** A bet that the user rejects in the wallet is not waited for. *)
Lemma placeBet_confirms_its_write_sample :
  placeBet (rt := referenceRuntime) Sample.config Cases.rejectingWallet
    Sample.renderApproved Sample.props
  = ([BetWrite Cases.sampleCall], Js.throw (Js.Rejected "User rejected the request.")).
Proof.
  apply (proj2 (proj2 (placeBet_confirms_its_write (rt := referenceRuntime)
                         Sample.config Cases.rejectingWallet
                         Sample.renderApproved Sample.props))).
  - vm_compute. apply list_elem_of_here.
  - reflexivity.
Defined.

(** The sample bet with the native token carries its amount as value. *)
Lemma written_bets_are_addressed_sample :
  bet_to Cases.nativeCall = "0xProxyFront"
  /\ bet_lp Cases.nativeCall = "0xLp"
  /\ bet_affiliate Cases.nativeCall = "0xAffiliate"
  /\ bet_value Cases.nativeCall = bet_amount Cases.nativeCall.
Proof.
  destruct (written_bets_are_addressed (rt := referenceRuntime) Sample.config
              Sample.wallet false Cases.nativeRender Sample.props Cases.nativeCall
              ltac:(vm_compute; apply list_elem_of_here))
    as (_ & _ & _ & Hto & Hlp & Haffiliate & Hvalue).
  repeat split; assumption.
Defined.

(** A deadline of [0] expires like no deadline, after the default one. *)
Lemma falsy_deadline_is_default_sample :
  placeBet (rt := referenceRuntime) Sample.config Sample.wallet Sample.renderApproved
    Cases.zeroDeadlineProps
  = placeBet (rt := referenceRuntime) Sample.config Sample.wallet Sample.renderApproved
      (withDeadline None Cases.zeroDeadlineProps).
Proof.
  apply (proj1 (falsy_deadline_is_default (rt := referenceRuntime) Sample.config
                  Sample.wallet Sample.renderApproved Cases.zeroDeadlineProps 0%float
                  ltac:(reflexivity) ltac:(reflexivity))).
Defined.

(** The render of the native token asks for no approval. *)
Lemma native_token_needs_no_approval_sample :
  exists h,
    usePrepareBet (rt := referenceRuntime) Sample.config Sample.wallet Cases.nativeRender
      Sample.props = Js.ret h
    /\ ret_isApproveRequired h = false
    /\ ret_submit h
       = placeBet (rt := referenceRuntime) Sample.config Sample.wallet Cases.nativeRender
           Sample.props
    /\ forall call, BetWrite call ∈ fst (ret_submit h) ->
         bet_value call = bet_amount call.
Proof.
  apply (native_token_needs_no_approval (rt := referenceRuntime) Sample.config
           Sample.wallet Cases.nativeRender Sample.props).
  reflexivity.
Defined.

(** ** Callbacks over any sequence of renders *)

(** Over any sequence of renders, [onSuccess] is invoked once for each
    render in which the receipt is successful, was not in the render before
    (or there is none), and [onSuccess] is supplied; and so is [onError]
    for a failed receipt. *)
Theorem callbacks_count_transitions (previous : option ReceiptState)
    (renders : list (Render * Props)) :
  length (List.filter isOnSuccess (commitRenders previous renders))
  = transitions isSuccess onSuccess previous renders
  /\ length (List.filter isOnError (commitRenders previous renders))
     = transitions isError onError previous renders.
Proof.
  revert previous. induction renders as [|[r p] later IH]; intros previous;
    [split; reflexivity|].
  destruct (IH (Some (betReceipt r))) as [IHs IHe].
  simpl. rewrite !List.filter_app, !length_app, IHs, IHe.
  unfold commitEffects, React.runs.
  split; f_equal;
    destruct previous as [old|]; simpl;
    destruct (isSuccess (betReceipt r)), (isError (betReceipt r)),
      (onSuccess p), (onError p);
    try destruct (isSuccess old); try destruct (isError old); reflexivity.
Qed.

(** A callback is invoked only for a render that sees the receipt in the
    state of the callback and supplies it; [onError] receives the error of
    that render. *)
Theorem callbacks_have_a_cause (previous : option ReceiptState)
    (renders : list (Render * Props)) :
  (OnSuccess ∈ commitRenders previous renders ->
     exists r p, (r, p) ∈ renders
       /\ isSuccess (betReceipt r) = true /\ onSuccess p = true)
  /\ (forall err, OnError err ∈ commitRenders previous renders ->
        exists r p, (r, p) ∈ renders
          /\ isError (betReceipt r) = true /\ onError p = true
          /\ err = error (betReceipt r)).
Proof.
  revert previous. induction renders as [|[r p] later IH]; intros previous; simpl.
  { split; [intros H|intros err H]; elem_cases H. }
  destruct (IH (Some (betReceipt r))) as [IHs IHe].
  split.
  - intros H. apply elem_of_app in H as [H|H].
    + exists r, p. split; [apply list_elem_of_here|].
      unfold commitEffects in H. apply elem_of_app in H as [H|H].
      * destruct (React.runs _ _); [|elem_cases H].
        destruct (isSuccess (betReceipt r)), (onSuccess p); simpl in H;
          elem_cases H; by split.
      * destruct (React.runs _ _); [|elem_cases H].
        destruct (isError (betReceipt r) && onError p); elem_cases H; discriminate.
    + destruct (IHs H) as (r' & p' & Hin & Hrest).
      exists r', p'. split; [by apply list_elem_of_further|exact Hrest].
  - intros err H. apply elem_of_app in H as [H|H].
    + exists r, p. split; [apply list_elem_of_here|].
      unfold commitEffects in H. apply elem_of_app in H as [H|H].
      * destruct (React.runs _ _); [|elem_cases H].
        destruct (isSuccess (betReceipt r) && onSuccess p); elem_cases H; discriminate.
      * destruct (React.runs _ _); [|elem_cases H].
        destruct (isError (betReceipt r)), (onError p); simpl in H;
          elem_cases H; injection H as ->; by repeat split.
    + destruct (IHe err H) as (r' & p' & Hin & Hrest).
      exists r', p'. split; [by apply list_elem_of_further|exact Hrest].
Qed.

(** A callback that is not supplied in the render of the transition is
    missed: while the receipt stays in its state, supplying the callback in
    a later render does not invoke it. *)
Theorem late_callback_is_missed (previous : option ReceiptState)
    (r : Render) (p : Props) (later : list (Render * Props)) :
  (isSuccess (betReceipt r) = true ->
   onSuccess p = false ->
   Forall (fun rp => isSuccess (betReceipt (fst rp)) = true) later ->
   List.filter isOnSuccess (commitRenders previous ((r, p) :: later)) = [])
  /\ (isError (betReceipt r) = true ->
      onError p = false ->
      Forall (fun rp => isError (betReceipt (fst rp)) = true) later ->
      List.filter isOnError (commitRenders previous ((r, p) :: later)) = []).
Proof.
  split; intros Hs Hcb Hlater; simpl; rewrite List.filter_app.
  - rewrite (no_success_while_successful _ _ Hs Hlater), app_nil_r.
    unfold commitEffects. rewrite Hs, Hcb. simpl.
    destruct (React.runs (isSuccess <$> previous) true); simpl;
      (destruct (React.runs (isError <$> previous) (isError (betReceipt r)));
       [destruct (isError (betReceipt r) && onError p)|]); reflexivity.
  - rewrite (no_error_while_failed _ _ Hs Hlater), app_nil_r.
    unfold commitEffects. rewrite Hs, Hcb. simpl.
    destruct (React.runs (isError <$> previous) true); simpl;
      (destruct (React.runs (isSuccess <$> previous) (isSuccess (betReceipt r)));
       [destruct (isSuccess (betReceipt r) && onSuccess p)|]); reflexivity.
Qed.

(** The receipt succeeds in a render without callbacks: [onSuccess],
    supplied from the next render on, is never invoked. *)
Lemma late_callback_is_missed_sample :
  List.filter isOnSuccess (commitRenders (Some Sample.pending) Cases.lateRenders) = [].
Proof.
  apply (proj1 (late_callback_is_missed (Some Sample.pending)
                  (Sample.renderWith Sample.succeeded) Cases.silentProps
                  [(Sample.renderWith Sample.succeeded, Sample.props);
                   (Sample.renderWith Sample.succeeded, Sample.props)])).
  - reflexivity.
  - reflexivity.
  - repeat constructor.
Defined.

(** An [onSuccess] in the sample renders has its successful render. *)
Lemma callbacks_have_a_cause_sample :
  exists r p, (r, p) ∈ Sample.successfulRenders
    /\ isSuccess (betReceipt r) = true /\ onSuccess p = true.
Proof.
  apply (proj1 (callbacks_have_a_cause (Some Sample.pending) Sample.successfulRenders)).
  vm_compute. apply list_elem_of_here.
Defined.

(** ** Approving, then betting *)

Section FlowFacts.
Context `{rt : JsRuntime}.
Variable cfg : Config.
Variable wallet : Wallet.

(** The two invocations of [submit] that place a bet with a token whose
    allowance is too low: in the render that requires the approval, [submit]
    writes the approval of [MAX_UINT_256] for the proxy front, waits for
    it and refetches the allowance, and writes no bet; in a later render
    that no longer requires it, [submit] writes the bet and waits for it. *)
Theorem approve_then_bet (r1 r2 : Render) (p : Props) (h1 h2 : PreparedBet)
    (approval : TxHash) (approved : Receipt wallet)
    (odds : float) (call : BetCall) (bet : TxHash) (confirmed : Receipt wallet) :
  usePrepareBet cfg wallet r1 p = Js.ret h1 ->
  ret_isApproveRequired h1 = true ->
  approveTx_writeAsync wallet (token_address (betToken r1)) (proxyFront (contracts r1))
    (MAX_UINT_256 cfg) = inr approval ->
  waitForTransactionReceipt wallet approval = inr approved ->
  usePrepareBet cfg wallet r2 p = Js.ret h2 ->
  ret_isApproveRequired h2 = false ->
  oddsAvailable cfg r2 = Some odds ->
  prepareCall cfg r2 p odds = Js.ret call ->
  betTx_writeAsync wallet call = inr bet ->
  waitForTransactionReceipt wallet bet = inr confirmed ->
  ret_submit h1
  = ([ApproveWrite (token_address (betToken r1)) (proxyFront (contracts r1))
        (MAX_UINT_256 cfg);
      WaitForReceipt approval; AllowanceRefetch], Js.ret tt)
  /\ ret_submit h2 = ([BetWrite call; WaitForReceipt bet], Js.ret tt).
Proof.
  unfold usePrepareBet, Js.bind, Js.ret.
  destruct (isApproveRequired r1 p) as [e1|required1]; [discriminate|].
  intros [= <-]. simpl. intros -> Hwrite1 Hwait1.
  destruct (isApproveRequired r2 p) as [e2|required2]; [discriminate|].
  intros [= <-]. simpl. intros -> Hodds Hcall Hwrite2 Hwait2.
  split.
  - unfold submit, approve, Async.bind, Async.call. rewrite Hwrite1. simpl.
    rewrite Hwait1. reflexivity.
  - unfold submit, placeBet, Async.bind, Async.call, Async.lift, Async.ret.
    rewrite Hodds, Hcall. unfold Js.ret. simpl. rewrite Hwrite2. simpl.
    rewrite Hwait2. reflexivity.
Qed.

End FlowFacts.

(** The sample bet: an approval in the render with an allowance of 5
    tokens, the bet in the render with the maximal allowance. *)
Lemma approve_then_bet_sample :
  ret_submit Sample.prepared
  = ([ApproveWrite "0xToken" "0xProxyFront" (2 ^ 256 - 1);
      WaitForReceipt "0xapprove"; AllowanceRefetch], Js.ret tt)
  /\ submit (rt := referenceRuntime) Sample.config Sample.wallet false
       Sample.renderApproved Sample.props
     = ([BetWrite Cases.sampleCall; WaitForReceipt "0xbet"], Js.ret tt).
Proof.
  apply (approve_then_bet (rt := referenceRuntime) Sample.config Sample.wallet
           Sample.render Sample.renderApproved Sample.props
           Sample.prepared
           {| ret_isApproveRequired := false;
              ret_conditionsOdds :=
                conditionsOdds (rt := referenceRuntime) Sample.config Sample.renderApproved;
              ret_totalOdds :=
                totalOdds (rt := referenceRuntime) Sample.config Sample.renderApproved;
              ret_submit :=
                submit (rt := referenceRuntime) Sample.config Sample.wallet false
                  Sample.renderApproved Sample.props |}
           "0xapprove" tt 2%float Cases.sampleCall "0xbet" tt);
    vm_compute; reflexivity.
Defined.

(** ** The table of chains *)

Section ChainTableFacts.
Variable ChainData : Type.

(** The resolver follows the table: a record registered under a non-zero
    identifier is what the resolver returns for that chain, without a
    message; a chain whose record is removed is not supported; records of
    other chains, added or removed, change nothing; and a record that the
    resolver returns is the one of the active chain, whose identifier is
    not zero, returned without a message. *)
Theorem useChainData_follows_the_table (chainsData : gmap Z ChainData)
    (id other : Z) (data : ChainData) :
  (id <> 0 -> useChainData (<[id := data]> chainsData) (Some id) = ([], Some data))
  /\ useChainData (delete id chainsData) (Some id)
     = (["Selected network not supported."], None)
  /\ (other <> id ->
      useChainData (<[other := data]> chainsData) (Some id)
      = useChainData chainsData (Some id)
      /\ useChainData (delete other chainsData) (Some id)
         = useChainData chainsData (Some id))
  /\ (forall chain found, snd (useChainData chainsData chain) = Some found ->
        fst (useChainData chainsData chain) = []
        /\ exists active, chain = Some active /\ active <> 0
                          /\ chainsData !! active = Some found).
Proof.
  unfold useChainData.
  split; [|split; [|split]].
  - intros Hid. apply Z.eqb_neq in Hid. by rewrite Hid, lookup_insert_eq.
  - destruct (id =? 0); [reflexivity|]. by rewrite lookup_delete_eq.
  - intros Hother. destruct (id =? 0); [by split|].
    by rewrite lookup_insert_ne, lookup_delete_ne.
  - intros [active|] found; [|discriminate].
    destruct (active =? 0) eqn:Hactive; [discriminate|].
    destruct (chainsData !! active) as [record|] eqn:Hrecord; [|discriminate].
    simpl. intros [= ->]. split; [reflexivity|].
    exists active. split; [reflexivity|]. split; [by apply Z.eqb_neq|exact Hrecord].
Qed.

End ChainTableFacts.

(** Registering the chain 137 in the sample table makes it resolve. *)
Lemma useChainData_follows_the_table_sample :
  useChainData (<[137 := "Polygon"]> Sample.chains) (Some 137) = ([], Some "Polygon").
Proof.
  apply (proj1 (useChainData_follows_the_table string Sample.chains 137 100 "Polygon")).
  lia.
Defined.

(** ** The minimum odds at the ends of the slippage range *)

(** With a slippage of 100 the minimum odds are exactly 1, whatever the
    finite aggregate odds of at least 1; and for aggregate odds of 1 they
    are exactly 1 at every slippage in [0, 100]. *)
Theorem minOdds_exactly_one (totalOdds slippage : float) :
  (PrimFloat.is_finite totalOdds = true ->
   (1 <=? totalOdds)%float = true ->
   minOdds totalOdds 100 = 1%float)
  /\ ((0 <=? slippage)%float = true ->
      (slippage <=? 100)%float = true ->
      minOdds 1 slippage = 1%float).
Proof.
  split.
  - intros Hfin Hone. apply Prim2SF_inj. unfold minOdds.
    rewrite FloatAxioms.add_spec, FloatAxioms.div_spec, FloatAxioms.mul_spec,
      !FloatAxioms.sub_spec.
    rewrite Binary64Facts.Prim2SF_one, Binary64Facts.Prim2SF_hundred.
    destruct (Binary64Facts.finite_ge_one _ Hfin Hone) as [m [e [Ht Hb]]].
    rewrite FloatAxioms.leb_spec, Binary64Facts.Prim2SF_one, Ht in Hone.
    pose proof (Binary64Facts.SFsub_finite_nonneg m 4503599627370496 e (-52)
                  Hb eq_refl Hone) as Hdiff.
    rewrite Ht.
    change (SF64sub Binary64.SF_hundred Binary64.SF_hundred) with (S754_zero false).
    fold Binary64.SF_one in Hdiff.
    destruct (SF64sub (S754_finite false m e) Binary64.SF_one) as [[]|[]| |[] ma ea];
      simpl in Hdiff; try tauto; reflexivity.
  - intros Hlo Hhi. apply Prim2SF_inj. unfold minOdds.
    rewrite FloatAxioms.add_spec, FloatAxioms.div_spec, FloatAxioms.mul_spec,
      !FloatAxioms.sub_spec.
    rewrite Binary64Facts.Prim2SF_one, Binary64Facts.Prim2SF_hundred.
    change (SF64sub Binary64.SF_one Binary64.SF_one) with (S754_zero false).
    assert (Hdiff : Binary64.finite_nonneg (SF64sub Binary64.SF_hundred (Prim2SF slippage))).
    { destruct (Binary64Facts.between_zero_and_hundred _ Hlo Hhi)
        as [[sign Hs]|[m [e [Hs [Hb Hle]]]]]; rewrite Hs.
      - exact I.
      - apply Binary64Facts.SFsub_finite_nonneg; [reflexivity|exact Hb|exact Hle]. }
    destruct (SF64sub Binary64.SF_hundred (Prim2SF slippage)) as [[]|[]| |[] ma ea];
      simpl in Hdiff; try tauto; reflexivity.
Qed.

(** Odds of 3.5 at a slippage of 100, and odds of 1 at a slippage of 5. *)
Lemma minOdds_exactly_one_sample :
  minOdds 3.5 100 = 1%float /\ minOdds 1 5 = 1%float.
Proof.
  split.
  - apply (proj1 (minOdds_exactly_one 3.5 5)); reflexivity.
  - apply (proj2 (minOdds_exactly_one 3.5 5)); reflexivity.
Defined.

(** ** What [placeBet] reads *)

Section PlaceBetFrame.
Context `{rt : JsRuntime}.
Variable cfg : Config.
Variable wallet : Wallet.

(** [placeBet] reads the token, the contracts, the raw aggregate odds and
    the clock of the render, and the amount, slippage, deadline, affiliate
    and selections of the props: it does not look at the allowance, at the
    receipt of an earlier bet, at the odds of the conditions or at the
    callbacks, and places the same bet whatever they are. *)
Theorem placeBet_ignores_the_allowance (r r' : Render) (p p' : Props) :
  betToken r = betToken r' ->
  contracts r = contracts r' ->
  odds_totalOdds r = odds_totalOdds r' ->
  Date_now r = Date_now r' ->
  amount p = amount p' ->
  slippage p = slippage p' ->
  deadline p = deadline p' ->
  affiliate p = affiliate p' ->
  selections p = selections p' ->
  placeBet cfg wallet r p = placeBet cfg wallet r' p'.
Proof.
  intros Htoken Hcontracts Hodds Hnow Hamount Hslippage Hdeadline Haffiliate
    Hselections.
  unfold placeBet, oddsAvailable, totalOdds, prepareCall, rawDeadline,
    deadlineOrDefault, encodeSelections, isCombo.
  by rewrite Htoken, Hcontracts, Hodds, Hnow, Hamount, Hslippage, Hdeadline,
    Haffiliate, Hselections.
Qed.

End PlaceBetFrame.

(** With an allowance of 5 tokens [placeBet] writes the bet of 10 tokens
    that it writes with the maximal allowance. *)
Lemma placeBet_ignores_the_allowance_sample :
  placeBet (rt := referenceRuntime) Sample.config Sample.wallet Sample.render
    Sample.props
  = placeBet (rt := referenceRuntime) Sample.config Sample.wallet
      Sample.renderApproved Cases.silentProps.
Proof.
  apply (placeBet_ignores_the_allowance (rt := referenceRuntime) Sample.config
           Sample.wallet Sample.render Sample.renderApproved
           Sample.props Cases.silentProps);
    reflexivity.
Defined.
